(** * SnapToy client: session-token lifecycle and credit reconciliation

    A shallow embedding of the API client ([services/api/index.ts]), the
    credit and auth state containers ([context/CreditContext],
    [context/AuthContext]) and the photo-transform hook
    ([hooks/usePhotoTransform]) of the SnapToy mobile client, with the
    properties of the behavioural specification stated over it.

    Values that TypeScript types as [any], or that arrive as JSON from the
    backend, are modelled as untyped JavaScript values; everything else
    follows the declared interfaces. *)

From Stdlib Require Import ZArith List String Ascii Bool Lia DecimalString.
Import ListNotations.
Local Open Scope string_scope.
Local Open Scope Z_scope.

(** ** JavaScript values *)

Module Js.

(** Numbers of the model: the integers and NaN.  Fractions and infinities
    do not occur in the counters this development is about. *)
Inductive JsNumber : Type :=
| JInt (z : Z)
| JNaN.

#[warnings="-register-all"]
Inductive JsValue : Type :=
| JUndefined
| JNull
| JBool (b : bool)
| JNum (n : JsNumber)
| JStr (s : string)
| JObj (fields : list (string * JsValue)).

Definition int (z : Z) : JsValue := JNum (JInt z).

(** [ToBoolean]. *)
Definition truthy (v : JsValue) : bool :=
  match v with
  | JUndefined | JNull => false
  | JBool b => b
  | JNum (JInt z) => negb (z =? 0)
  | JNum JNaN => false
  | JStr s => negb (String.eqb s "")
  | JObj _ => true
  end.

Definition nullish (v : JsValue) : bool :=
  match v with
  | JUndefined | JNull => true
  | _ => false
  end.

(** [a || b]. *)
Definition or_else (a b : JsValue) : JsValue := if truthy a then a else b.

Fixpoint lookup (fields : list (string * JsValue)) (k : string) : JsValue :=
  match fields with
  | [] => JUndefined
  | (k', v) :: rest => if String.eqb k' k then v else lookup rest k
  end.

(** [v.k]: a [TypeError] ([None]) on [undefined] and [null]; primitives
    have none of the properties read in this program. *)
Definition get (v : JsValue) (k : string) : option JsValue :=
  match v with
  | JUndefined | JNull => None
  | JObj fields => Some (lookup fields k)
  | _ => Some JUndefined
  end.

(** [v?.k]. *)
Definition get_opt (v : JsValue) (k : string) : JsValue :=
  match get v k with
  | Some x => x
  | None => JUndefined
  end.

(** *** Conversions *)

Definition is_space (c : ascii) : bool :=
  match nat_of_ascii c with
  | 9%nat | 10%nat | 11%nat | 12%nat | 13%nat | 32%nat => true
  | _ => false
  end.

Fixpoint drop_spaces (s : string) : string :=
  match s with
  | String c rest => if is_space c then drop_spaces rest else s
  | EmptyString => EmptyString
  end.

Definition digit_of (c : ascii) : option Z :=
  let n := Z.of_nat (nat_of_ascii c) in
  if (48 <=? n) && (n <=? 57) then Some (n - 48) else None.

(** *** [StringToNumber]

    Strings hold the UTF-8 encoding of their text. *)

Definition char_code (c : ascii) : Z := Z.of_nat (nat_of_ascii c).

(** The rest of [s] behind one character of [StrWhiteSpaceChar] at its
    head: TAB, LF, VT, FF, CR, SP, U+00A0, U+1680, U+2000 to U+200A,
    U+2028, U+2029, U+202F, U+205F, U+3000 and U+FEFF. *)
Definition skip_white (s : string) : option string :=
  match s with
  | String a rest =>
      let a := char_code a in
      if ((9 <=? a) && (a <=? 13)) || (a =? 32) then Some rest
      else
        match rest with
        | String b rest2 =>
            let b := char_code b in
            if (a =? 194) && (b =? 160) then Some rest2
            else
              match rest2 with
              | String c rest3 =>
                  let c := char_code c in
                  if ((a =? 225) && (b =? 154) && (c =? 128))
                     || ((a =? 226) && (b =? 128)
                         && (((128 <=? c) && (c <=? 138))
                             || (c =? 168) || (c =? 169) || (c =? 175)))
                     || ((a =? 226) && (b =? 129) && (c =? 159))
                     || ((a =? 227) && (b =? 128) && (c =? 128))
                     || ((a =? 239) && (b =? 187) && (c =? 191))
                  then Some rest3
                  else None
              | EmptyString => None
              end
        | EmptyString => None
        end
  | EmptyString => None
  end.

Fixpoint drop_white (fuel : nat) (s : string) : string :=
  match fuel with
  | O => s
  | S fuel' =>
      match skip_white s with
      | Some rest => drop_white fuel' rest
      | None => s
      end
  end.

Definition all_white (s : string) : bool :=
  String.eqb (drop_white (String.length s) s) "".

Fixpoint drop_white_end (s : string) : string :=
  match s with
  | String c rest => if all_white s then "" else String c (drop_white_end rest)
  | EmptyString => ""
  end.

Definition trim_white (s : string) : string :=
  drop_white_end (drop_white (String.length s) s).

(** The decimal digits at the head of [s]: their value on top of [acc],
    how many there are on top of [n], and what follows them. *)
Fixpoint take_digits (s : string) (acc : Z) (n : nat) : Z * nat * string :=
  match s with
  | String c rest =>
      match digit_of c with
      | Some d => take_digits rest (10 * acc + d) (S n)
      | None => (acc, n, s)
      end
  | EmptyString => (acc, n, s)
  end.

(** [ExponentPart], or nothing, up to the end of the string. *)
Definition exponent_part (s : string) : option Z :=
  match s with
  | EmptyString => Some 0
  | String c rest =>
      if (char_code c =? 101) || (char_code c =? 69) then
        let '(sign, rest') :=
          match rest with
          | String "+" r => (1, r)
          | String "-" r => (-1, r)
          | _ => (1, rest)
          end in
        match take_digits rest' 0 0 with
        | (e, S _, EmptyString) => Some (sign * e)
        | _ => None
        end
      else None
  end.

(** [m * 10 ^ k], when that is an integer. *)
Definition scaled (m k : Z) : JsNumber :=
  if m =? 0 then JInt 0
  else if 0 <=? k then JInt (m * 10 ^ k)
  else if m mod 10 ^ (- k) =? 0 then JInt (m / 10 ^ (- k))
  else JNaN.

(** [StrUnsignedDecimalLiteral] but [Infinity]: digits with an optional
    fraction, or a fraction alone, and an optional exponent. *)
Definition unsigned_decimal (s : string) : JsNumber :=
  let '(i, ni, rest) := take_digits s 0 0 in
  let '(m, nf, rest') :=
    match rest with
    | String "." r => take_digits r i 0
    | _ => (i, 0%nat, rest)
    end in
  match ni, nf with
  | O, O => JNaN
  | _, _ =>
      match exponent_part rest' with
      | Some e => scaled m (e - Z.of_nat nf)
      | None => JNaN
      end
  end.

Definition digit_in (radix : Z) (c : ascii) : option Z :=
  let n := char_code c in
  let d := if (48 <=? n) && (n <=? 57) then n - 48
           else if (97 <=? n) && (n <=? 102) then n - 87
           else if (65 <=? n) && (n <=? 70) then n - 55
           else radix in
  if d <? radix then Some d else None.

Fixpoint digits_in (radix : Z) (s : string) (acc : Z) : option Z :=
  match s with
  | EmptyString => Some acc
  | String c rest =>
      match digit_in radix c with
      | Some d => digits_in radix rest (radix * acc + d)
      | None => None
      end
  end.

(** [NonDecimalIntegerLiteral]: the radix announced by the prefix of
    [s], if there is one. *)
Definition radix_prefix (s : string) : option (Z * string) :=
  match s with
  | String "0" (String p rest) =>
      let p := char_code p in
      if (p =? 120) || (p =? 88) then Some (16, rest)
      else if (p =? 111) || (p =? 79) then Some (8, rest)
      else if (p =? 98) || (p =? 66) then Some (2, rest)
      else None
  | _ => None
  end.

Definition negated (n : JsNumber) : JsNumber :=
  match n with
  | JInt z => JInt (- z)
  | JNaN => JNaN
  end.

(** [StringToNumber]: white space and line terminators around the literal
    are dropped, the empty string is 0, a hexadecimal, octal or binary
    literal takes no sign, a decimal literal may have a sign, a fraction
    and an exponent; anything else is NaN.  A literal whose value is not an
    integer ([2.5], [1e-3], [Infinity]) denotes a number outside
    [JsNumber]: it is NaN here, and no property below converts one. *)
Definition string_to_number (s : string) : JsNumber :=
  match trim_white s with
  | EmptyString => JInt 0
  | String "+" rest => unsigned_decimal rest
  | String "-" rest => negated (unsigned_decimal rest)
  | t =>
      match radix_prefix t with
      | Some (radix, EmptyString) => JNaN
      | Some (radix, ds) =>
          match digits_in radix ds 0 with
          | Some z => JInt z
          | None => JNaN
          end
      | None => unsigned_decimal t
      end
  end.

(** [ToNumber]. *)
Definition to_number (v : JsValue) : JsNumber :=
  match v with
  | JUndefined => JNaN
  | JNull => JInt 0
  | JBool b => JInt (if b then 1 else 0)
  | JNum n => n
  | JStr s => string_to_number s
  | JObj _ => JNaN
  end.

Definition number_to_string (n : JsNumber) : string :=
  match n with
  | JInt z => NilZero.string_of_int (Z.to_int z)
  | JNaN => "NaN"
  end.

(** [ToString]; a plain object prints as [[object Object]]. *)
Definition to_string (v : JsValue) : string :=
  match v with
  | JUndefined => "undefined"
  | JNull => "null"
  | JBool b => if b then "true" else "false"
  | JNum n => number_to_string n
  | JStr s => s
  | JObj _ => "[object Object]"
  end.

(** *** Operators *)

Definition num_add (a b : JsNumber) : JsNumber :=
  match a, b with
  | JInt x, JInt y => JInt (x + y)
  | _, _ => JNaN
  end.

Definition num_sub (a b : JsNumber) : JsNumber :=
  match a, b with
  | JInt x, JInt y => JInt (x - y)
  | _, _ => JNaN
  end.

Definition stringy (v : JsValue) : bool :=
  match v with
  | JStr _ | JObj _ => true
  | _ => false
  end.

(** [a + b]: concatenation as soon as one operand is a string after
    [ToPrimitive], numeric addition otherwise. *)
Definition add (a b : JsValue) : JsValue :=
  if stringy a || stringy b
  then JStr (to_string a ++ to_string b)
  else JNum (num_add (to_number a) (to_number b)).

(** [a - b]. *)
Definition sub (a b : JsValue) : JsValue :=
  JNum (num_sub (to_number a) (to_number b)).

(** [Math.max(a, b)]. *)
Definition math_max (a b : JsValue) : JsValue :=
  match to_number a, to_number b with
  | JInt x, JInt y => JNum (JInt (Z.max x y))
  | _, _ => JNum JNaN
  end.

(** [v === z] for a number literal [z]. *)
Definition is_int (v : JsValue) (z : Z) : bool :=
  match v with
  | JNum (JInt x) => x =? z
  | _ => false
  end.

(** [v === s] for a string literal [s]. *)
Definition is_str (v : JsValue) (s : string) : bool :=
  match v with
  | JStr x => String.eqb x s
  | _ => false
  end.

(** A value of the type [integer >= 0]. *)
Definition nonneg_int (v : JsValue) : Prop :=
  exists z, v = JNum (JInt z) /\ 0 <= z.

Definition nonneg_intb (v : JsValue) : bool :=
  match v with
  | JNum (JInt z) => 0 <=? z
  | _ => false
  end.

End Js.
Import Js.

(** ** Requests, responses and thrown values *)

(** The part of an axios request configuration the client reads or writes.
    Every configuration that went through [client.request] carries a
    [headers] object, so [originalRequest.headers] is always truthy; its
    [Authorization] entry is the field below. *)
Record Request : Type := mkRequest
  { method : string;
    url : string;
    contentType : string;
    authorization : option string;
    body : JsValue }.

Record Response : Type := mkResponse
  { status : Z;
    data : JsValue }.

(** What the network gives back for one request: an HTTP response of any
    status, or none at all (connection failure, or the 30000 ms timeout). *)
Inductive NetResult : Type :=
| Answer (r : Response)
| NoAnswer (message : string).

(** Values that are thrown, or that reject a promise. *)
Inductive Thrown : Type :=
| AxiosError (message : string) (config : option Request)
    (response : option Response)
| Error (message : string).

Definition request_js (r : Request) : JsValue :=
  JObj [("method", JStr (method r)); ("url", JStr (url r));
        ("headers",
          JObj (("Content-Type", JStr (contentType r)) ::
                match authorization r with
                | Some a => [("Authorization", JStr a)]
                | None => []
                end));
        ("data", body r)].

Definition response_js (r : Response) : JsValue :=
  JObj [("status", int (status r)); ("data", data r)].

(** A thrown value as the [any] that a [catch] clause receives. *)
Definition thrown_js (e : Thrown) : JsValue :=
  match e with
  | AxiosError m c r =>
      JObj [("message", JStr m);
            ("config", match c with Some c => request_js c | None => JUndefined end);
            ("response", match r with Some r => response_js r | None => JUndefined end)]
  | Error m => JObj [("message", JStr m)]
  end.

Definition error_config (e : Thrown) : option Request :=
  match e with
  | AxiosError _ c _ => c
  | Error _ => None
  end.

(** [error.response?.status]. *)
Definition error_status (e : Thrown) : JsValue :=
  match e with
  | AxiosError _ _ (Some r) => int (status r)
  | _ => JUndefined
  end.

(** ** The environment and the state of the client *)

(** The backend and the platform's secure storage are outside the program.
    The backend answers a request knowing the requests it has received so
    far (newest first); the [n]-th secure-storage operation of a run fails
    when [storage_fails n] holds, and a failed operation leaves the stored
    entry as it was. *)
Record Env : Type := mkEnv
  { server : list Request -> Request -> NetResult;
    storage_fails : nat -> bool }.

(** [store] is the [sessionToken] entry of the secure store, [sent] the
    requests put on the wire (newest first), [storage_ops] the number of
    secure-storage operations so far.  [calls] is a ghost log of the facade
    operations entered (newest first). *)
Record World : Type := mkWorld
  { store : option string;
    sent : list Request;
    storage_ops : nat;
    calls : list string }.

Definition set_store (v : option string) (w : World) : World :=
  mkWorld v (sent w) (storage_ops w) (calls w).

Definition log_sent (r : Request) (w : World) : World :=
  mkWorld (store w) (r :: sent w) (storage_ops w) (calls w).

Definition tick_storage (w : World) : World :=
  mkWorld (store w) (sent w) (S (storage_ops w)) (calls w).

Definition log_call (name : string) (w : World) : World :=
  mkWorld (store w) (sent w) (storage_ops w) (name :: calls w).

(** ** Asynchronous computations

    A computation ends with a value, with a thrown value (a rejected
    promise), or does not end within the nesting depth it was given. *)

Inductive Outcome (A : Type) : Type :=
| Ret (a : A)
| Throw (e : Thrown)
| OutOfFuel.
Arguments Ret {A} a.
Arguments Throw {A} e.
Arguments OutOfFuel {A}.

Definition M (S A : Type) : Type := S -> Outcome A * S.

Definition ret {S A} (a : A) : M S A := fun s => (Ret a, s).

Definition throw {S A} (e : Thrown) : M S A := fun s => (Throw e, s).

Definition diverge {S A} : M S A := fun s => (OutOfFuel, s).

Definition bind {S A B} (m : M S A) (k : A -> M S B) : M S B :=
  fun s =>
    match m s with
    | (Ret a, s') => k a s'
    | (Throw e, s') => (Throw e, s')
    | (OutOfFuel, s') => (OutOfFuel, s')
    end.

(** [try { m } catch (e) { h e }]. *)
Definition try_catch {S A} (m : M S A) (h : Thrown -> M S A) : M S A :=
  fun s =>
    match m s with
    | (Throw e, s') => h e s'
    | r => r
    end.

Definition modify {S} (f : S -> S) : M S unit := fun s => (Ret tt, f s).

Definition gets {S A} (f : S -> A) : M S A := fun s => (Ret (f s), s).

Declare Scope async_scope.
Delimit Scope async_scope with async.
Notation "x <- m ;; k" := (bind m (fun x => k))
  (at level 100, m at next level, right associativity) : async_scope.
Notation "m ;; k" := (bind m (fun _ => k))
  (at level 100, right associativity) : async_scope.
Local Open Scope async_scope.

(** [v.k], throwing the [TypeError] of a read on [undefined] or [null]. *)
Definition prop {S} (v : JsValue) (k : string) : M S JsValue :=
  match get v k with
  | Some x => ret x
  | None => throw (Error ("Cannot read properties of " ++ to_string v))
  end.

(** ** Constants ([constants/api]) *)

Module API_ENDPOINTS.
Definition auth_apple : string := "/auth/apple".
Definition auth_refresh : string := "/auth/refresh".
Definition credits_balance : string := "/api/users/credits".
Definition transform_create : string := "/api/transform".
Definition auth_validate : string := "/auth/validate".
Definition credits_purchase : string := "/api/credits/purchase".
End API_ENDPOINTS.

Module API_ERROR_CODES.
Definition AUTHENTICATION_REQUIRED : string := "AUTHENTICATION_REQUIRED".
Definition INVALID_TOKEN : string := "INVALID_TOKEN".
Definition ACCESS_DENIED : string := "ACCESS_DENIED".
Definition VALIDATION_ERROR : string := "VALIDATION_ERROR".
Definition NO_FILE : string := "NO_FILE".
Definition INVALID_IMAGE : string := "INVALID_IMAGE".
Definition INSUFFICIENT_CREDITS : string := "INSUFFICIENT_CREDITS".
Definition TRANSFORMATION_ERROR : string := "TRANSFORMATION_ERROR".
Definition PURCHASE_ERROR : string := "PURCHASE_ERROR".
Definition SUBSCRIPTION_ERROR : string := "SUBSCRIPTION_ERROR".
Definition RATE_LIMITED : string := "RATE_LIMITED".
Definition SERVER_ERROR : string := "SERVER_ERROR".
Definition SERVICE_UNAVAILABLE : string := "SERVICE_UNAVAILABLE".
End API_ERROR_CODES.

(** ** [handleApiError] ([services/api/index.ts]) *)

Definition known_code_message (code : JsValue) : option string :=
  if is_str code API_ERROR_CODES.INSUFFICIENT_CREDITS then
    Some "Insufficient credits. Please purchase more credits to continue."
  else if is_str code API_ERROR_CODES.INVALID_IMAGE then
    Some "Invalid image format. Please try with a different photo."
  else if is_str code API_ERROR_CODES.TRANSFORMATION_ERROR then
    Some "Photo transformation failed. Please try again."
  else if is_str code API_ERROR_CODES.AUTHENTICATION_REQUIRED then
    Some "Please sign in to continue."
  else if is_str code API_ERROR_CODES.INVALID_TOKEN then
    Some "Session expired. Please sign in again."
  else if is_str code API_ERROR_CODES.RATE_LIMITED then
    Some "Too many requests. Please try again later."
  else if is_str code API_ERROR_CODES.SERVICE_UNAVAILABLE then
    Some "Service temporarily unavailable. Please try again later."
  else None.

(** [None] is the [TypeError] of reading [error.response] when [error] is
    [undefined] or [null]. *)
Definition handleApiError (error : JsValue) : option JsValue :=
  match get error "response" with
  | None => None
  | Some response =>
      let e := get_opt (get_opt response "data") "error" in
      if truthy e then
        let code := get_opt e "code" in
        let message := get_opt e "message" in
        match known_code_message code with
        | Some fixed => Some (JStr fixed)
        | None =>
            Some (or_else message (JStr "Something went wrong. Please try again."))
        end
      else
        let m := get_opt error "message" in
        if truthy m then Some m
        else Some (JStr "Network error. Please check your connection.")
  end.

Definition handleApiError_m {S} (error : JsValue) : M S JsValue :=
  match handleApiError error with
  | Some v => ret v
  | None => throw (Error "Cannot read properties of undefined (reading 'response')")
  end.

(** ** The API service ([services/api/index.ts]) *)

Definition with_authorization (r : Request) (a : string) : Request :=
  mkRequest (method r) (url r) (contentType r) (Some a) (body r).

Definition bearer (token : string) : string := "Bearer " ++ token.

(** [if (token)] for a [string | null]. *)
Definition truthy_token (t : option string) : bool :=
  match t with
  | Some s => negb (String.eqb s "")
  | None => false
  end.

(** axios' default [validateStatus]. *)
Definition validateStatus (s : Z) : bool := (200 <=? s) && (s <? 300).

Definition post (u : string) (d : JsValue) : Request :=
  mkRequest "post" u "application/json" None d.

Definition get_request (u : string) : Request :=
  mkRequest "get" u "application/json" None JUndefined.

(** How the promise of a request settles on what the network gave back. *)
Definition settle (config : Request) (a : NetResult) : Outcome Response :=
  match a with
  | Answer r =>
      if validateStatus (status r) then Ret r
      else Throw (AxiosError
                    ("Request failed with status code " ++ to_string (int (status r)))
                    (Some config) (Some r))
  | NoAnswer message => Throw (AxiosError message (Some config) None)
  end.

(** The request as the request interceptor leaves it when it reads
    [stored] from the secure store. *)
Definition authorized (stored : option string) (config : Request) : Request :=
  match stored with
  | Some t => if truthy_token stored
              then with_authorization config (bearer t)
              else config
  | None => config
  end.

(** What the interceptor's [try] block decides. *)
Inductive Next : Type :=
| Resend (r : Request)
| Reject.

Section ApiService.

Variable env : Env.

(** *** expo-secure-store, for the key [sessionToken] *)

Definition storage_failure : Thrown := Error "SecureStore operation failed".

Definition getItemAsync : M World (option string) :=
  fun w =>
    if storage_fails env (storage_ops w)
    then (Throw storage_failure, tick_storage w)
    else (Ret (store w), tick_storage w).

(** The library refuses a value that is not a string before it touches the
    store. *)
Definition setItemAsync (value : JsValue) : M World unit :=
  match value with
  | JStr s =>
      fun w =>
        if storage_fails env (storage_ops w)
        then (Throw storage_failure, tick_storage w)
        else (Ret tt, set_store (Some s) (tick_storage w))
  | _ => throw (Error "Invalid value provided to SecureStore. Values must be strings")
  end.

Definition deleteItemAsync : M World unit :=
  fun w =>
    if storage_fails env (storage_ops w)
    then (Throw storage_failure, tick_storage w)
    else (Ret tt, set_store None (tick_storage w)).

(** *** Token management *)

Definition getStoredSessionToken : M World (option string) :=
  try_catch getItemAsync (fun _ => ret None).

Definition storeSessionToken (token : JsValue) : M World unit :=
  try_catch (setItemAsync token) (fun error => throw error).

Definition clearSessionToken : M World unit :=
  try_catch deleteItemAsync (fun _ => ret tt).

(** *** The HTTP client *)

(** The transport below the interceptors: the request goes on the wire and
    the promise resolves on a status accepted by [validateStatus], and
    rejects with an [AxiosError] otherwise. *)
Definition send (config : Request) : M World Response :=
  fun w => (settle config (server env (sent w) config), log_sent config w).

(** The envelope check shared by the facade operations:
    [if (response.data.success && response.data.data) ...;
     throw new Error(response.data.error?.message || fallback)]. *)
Definition unwrap (response : Response) (fallback : string) : M World JsValue :=
  success <- prop (data response) "success" ;;
  payload <- (if truthy success then prop (data response) "data" else ret success) ;;
  if truthy payload then ret payload
  else
    err <- prop (data response) "error" ;;
    throw (Error (to_string (or_else (get_opt err "message") (JStr fallback)))).

(** [refreshToken], over the [client.post] it calls. *)
Definition refreshToken_via (request : Request -> M World Response)
  : M World JsValue :=
  modify (log_call "refreshToken") ;;
  response <- request (post API_ENDPOINTS.auth_refresh JUndefined) ;;
  payload <- unwrap response "Token refresh failed" ;;
  token <- prop payload "sessionToken" ;;
  storeSessionToken token ;;
  ret payload.

(** The rejection handler of the response interceptor.  The promise of the
    resent request is returned from inside the [try] block without being
    awaited there, so its rejection does not reach the [catch] clause. *)
Definition on_rejected (request : Request -> M World Response)
  (error : Thrown) : M World Response :=
  match error_config error with
  | Some originalRequest =>
      if is_int (error_status error) 401 then
        next <- try_catch
                  (refreshToken_via request ;;
                   token <- getStoredSessionToken ;;
                   match token with
                   | Some t =>
                       if truthy_token token
                       then ret (Resend (with_authorization originalRequest (bearer t)))
                       else ret Reject
                   | None => ret Reject
                   end)
                  (fun refreshError => clearSessionToken ;; throw refreshError) ;;
        match next with
        | Resend r => request r
        | Reject => throw error
        end
      else throw error
  | None => throw error
  end.

(** The request interceptor. *)
Definition on_request (config : Request) : M World Request :=
  token <- getStoredSessionToken ;;
  ret (authorized token config).

(** [client.request(config)]; [fuel] bounds how deeply the interceptor may
    re-enter the client. *)
Fixpoint request (fuel : nat) (config : Request) : M World Response :=
  match fuel with
  | O => diverge
  | S fuel' =>
      config' <- on_request config ;;
      try_catch (send config') (on_rejected (request fuel'))
  end.

(** *** Facade operations *)

Definition signInWithApple (fuel : nat) (credential : JsValue) : M World JsValue :=
  modify (log_call "signInWithApple") ;;
  response <- request fuel (post API_ENDPOINTS.auth_apple credential) ;;
  payload <- unwrap response "Sign-in failed" ;;
  token <- prop payload "sessionToken" ;;
  storeSessionToken token ;;
  ret payload.

Definition refreshToken (fuel : nat) : M World JsValue :=
  refreshToken_via (request fuel).

Definition signOut : M World unit :=
  modify (log_call "signOut") ;;
  clearSessionToken.

Definition getCreditBalance (fuel : nat) : M World JsValue :=
  modify (log_call "getCreditBalance") ;;
  response <- request fuel (get_request API_ENDPOINTS.credits_balance) ;;
  unwrap response "Failed to get credit balance".

End ApiService.

(** ** The credit state container ([context/CreditContext]) *)

Module CreditContext.

Record CreditState : Type := mkCreditState
  { photoCredits : JsValue;
    subscriptionTier : JsValue;
    availablePackages : list JsValue;
    purchaseHistory : list JsValue;
    isLoading : bool;
    error : JsValue }.

(** The actions with the payloads of their dispatch sites: [SET_BALANCE]
    carries the object literal [{photoCredits, subscriptionTier}] built from
    the balance response, [ADD_PURCHASE] the object returned by
    [purchaseCredits], given by its properties. *)
Inductive CreditAction : Type :=
| SET_BALANCE (photoCredits subscriptionTier : JsValue)
| SET_PACKAGES (payload : list JsValue)
| SET_PURCHASE_HISTORY (payload : list JsValue)
| SET_LOADING (payload : bool)
| SET_ERROR (payload : JsValue)
| CONSUME_CREDIT
| ADD_PURCHASE (payload : list (string * JsValue)).

Definition initialState : CreditState :=
  mkCreditState (int 0) (JStr "free") [] [] false JNull.

Definition creditReducer (state : CreditState) (action : CreditAction)
  : CreditState :=
  match action with
  | SET_BALANCE credits tier =>
      mkCreditState credits tier
        (availablePackages state) (purchaseHistory state) false JNull
  | SET_PACKAGES payload =>
      mkCreditState (photoCredits state) (subscriptionTier state)
        payload (purchaseHistory state) false JNull
  | SET_PURCHASE_HISTORY payload =>
      mkCreditState (photoCredits state) (subscriptionTier state)
        (availablePackages state) payload false JNull
  | SET_LOADING payload =>
      mkCreditState (photoCredits state) (subscriptionTier state)
        (availablePackages state) (purchaseHistory state) payload JNull
  | SET_ERROR payload =>
      mkCreditState (photoCredits state) (subscriptionTier state)
        (availablePackages state) (purchaseHistory state) false payload
  | CONSUME_CREDIT =>
      mkCreditState (math_max (int 0) (sub (photoCredits state) (int 1)))
        (subscriptionTier state)
        (availablePackages state) (purchaseHistory state)
        (isLoading state) (error state)
  | ADD_PURCHASE payload =>
      mkCreditState
        (add (photoCredits state) (lookup payload "creditsAwarded"))
        (subscriptionTier state)
        (availablePackages state) (JObj payload :: purchaseHistory state)
        (isLoading state) (error state)
  end.

(** An object of the declared shape [CreditPurchaseResponse]
    ([types/api.ts]). *)
Record CreditPurchaseResponse : Type := mkCreditPurchaseResponse
  { publicId : string;
    creditsAdded : Z;
    amount : Z;
    purchaseStatus : string;
    receiptData : string;
    createdAt : string }.

Definition purchase_fields (p : CreditPurchaseResponse)
  : list (string * JsValue) :=
  [("publicId", JStr (publicId p));
   ("creditsAdded", int (creditsAdded p));
   ("amount", int (amount p));
   ("status", JStr (purchaseStatus p));
   ("receiptData", JStr (receiptData p));
   ("createdAt", JStr (createdAt p))].

End CreditContext.

(** ** The auth state container ([context/AuthContext]) *)

Module AuthContext.

Record AuthStateInternal : Type := mkAuthState
  { user : JsValue;
    sessionToken : JsValue;
    isLoading : bool;
    error : JsValue;
    isAvailable : bool }.

Inductive AuthAction : Type :=
| SIGN_IN_START
| SIGN_IN_SUCCESS (user token : JsValue)
| SIGN_IN_ERROR (payload : JsValue)
| SIGN_OUT
| SET_LOADING (payload : bool)
| SET_AVAILABILITY (payload : bool).

Definition authReducer (state : AuthStateInternal) (action : AuthAction)
  : AuthStateInternal :=
  match action with
  | SIGN_IN_START =>
      mkAuthState (user state) (sessionToken state) true JNull (isAvailable state)
  | SIGN_IN_SUCCESS u token =>
      mkAuthState u token false JNull (isAvailable state)
  | SIGN_IN_ERROR payload =>
      mkAuthState JNull JNull false payload (isAvailable state)
  | SIGN_OUT =>
      mkAuthState JNull JNull false JNull (isAvailable state)
  | SET_LOADING payload =>
      mkAuthState (user state) (sessionToken state) payload (error state)
        (isAvailable state)
  | SET_AVAILABILITY payload =>
      mkAuthState (user state) (sessionToken state) (isLoading state)
        (error state) payload
  end.

Definition initialState : AuthStateInternal :=
  mkAuthState JNull JNull true JNull false.

(** The state [SignedOut] of the session state machine. *)
Definition SignedOut (state : AuthStateInternal) : Prop :=
  user state = JNull /\ sessionToken state = JNull /\
  isLoading state = false /\ error state = JNull.

End AuthContext.

(** ** The photo-transform hook ([hooks/usePhotoTransform]) *)

Module PhotoTransform.

Record TransformState : Type := mkTransformState
  { isTransforming : bool;
    currentImage : option string;
    result : JsValue;
    error : JsValue;
    progress : option string }.

Definition initialState : TransformState :=
  mkTransformState false None JNull JNull None.

Inductive BackgroundType : Type := cartoon | lego | photo.

Definition background_name (b : BackgroundType) : string :=
  match b with
  | cartoon => "cartoon"
  | lego => "lego"
  | photo => "photo"
  end.

(** The value [transformPhoto] resolves to:
    [{ success; result?; error? }]. *)
Record TransformOutcome : Type := mkTransformOutcome
  { success : bool;
    outcome_result : JsValue;
    outcome_error : JsValue }.

Definition outcome_js (o : TransformOutcome) : JsValue :=
  JObj [("success", JBool (success o));
        ("result", outcome_result o);
        ("error", outcome_error o)].

End PhotoTransform.

(** ** The running application *)

Record Sys : Type := mkSys
  { world : World;
    creditState : CreditContext.CreditState;
    authState : AuthContext.AuthStateInternal;
    transformState : PhotoTransform.TransformState }.

Definition set_world (w : World) (s : Sys) : Sys :=
  mkSys w (creditState s) (authState s) (transformState s).

Definition set_creditState (c : CreditContext.CreditState) (s : Sys) : Sys :=
  mkSys (world s) c (authState s) (transformState s).

Definition set_authState (a : AuthContext.AuthStateInternal) (s : Sys) : Sys :=
  mkSys (world s) (creditState s) a (transformState s).

Definition set_transformState (t : PhotoTransform.TransformState) (s : Sys) : Sys :=
  mkSys (world s) (creditState s) (authState s) t.

(** An API-service computation run inside the application. *)
Definition liftW {A} (m : M World A) : M Sys A :=
  fun s =>
    match m (world s) with
    | (o, w') => (o, set_world w' s)
    end.

(** [x >= 1]: [ToNumber x] compared with 1; NaN compares false. *)
Definition at_least_one (x : JsValue) : bool :=
  match to_number x with
  | JInt z => 1 <=? z
  | JNaN => false
  end.

Section App.

Variable env : Env.

Import PhotoTransform.

(** [ApiService.transformPhoto]: the multipart form holds the image part,
    the background type and, when truthy, the custom prompt. *)
Definition transformPhoto_form (imageUri : string) (backgroundType : BackgroundType)
  (customPrompt : option string) : JsValue :=
  JObj (("image", JObj [("uri", JStr imageUri); ("type", JStr "image/jpeg");
                        ("name", JStr "photo.jpg")]) ::
        ("backgroundType", JStr (background_name backgroundType)) ::
        match customPrompt with
        | Some p => if truthy_token customPrompt then [("customPrompt", JStr p)] else []
        | None => []
        end).

Definition api_transformPhoto (fuel : nat) (imageUri : string)
  (backgroundType : BackgroundType) (customPrompt : option string)
  : M World JsValue :=
  modify (log_call "transformPhoto") ;;
  response <- request env fuel
                (mkRequest "post" API_ENDPOINTS.transform_create
                   "multipart/form-data" None
                   (transformPhoto_form imageUri backgroundType customPrompt)) ;;
  unwrap response "Photo transformation failed".

(** *** CreditProvider *)

Definition dispatchCredit (a : CreditContext.CreditAction) : M Sys unit :=
  modify (fun s => set_creditState (CreditContext.creditReducer (creditState s) a) s).

Definition refreshBalance (fuel : nat) : M Sys unit :=
  try_catch
    (dispatchCredit (CreditContext.SET_LOADING true) ;;
     response <- liftW (getCreditBalance env fuel) ;;
     credits <- prop response "photoCredits" ;;
     tier <- prop response "subscriptionTier" ;;
     dispatchCredit (CreditContext.SET_BALANCE credits tier))
    (fun error =>
       errorMessage <- handleApiError_m (thrown_js error) ;;
       dispatchCredit (CreditContext.SET_ERROR errorMessage)).

Definition consumeCredit : M Sys unit :=
  dispatchCredit CreditContext.CONSUME_CREDIT.

(** *** AuthProvider *)

Definition dispatchAuth (a : AuthContext.AuthAction) : M Sys unit :=
  modify (fun s => set_authState (AuthContext.authReducer (authState s) a) s).

Definition AuthProvider_signOut : M Sys unit :=
  try_catch
    (liftW (signOut env) ;;
     dispatchAuth AuthContext.SIGN_OUT)
    (fun _ => dispatchAuth AuthContext.SIGN_OUT).

Definition AuthProvider_refreshToken (fuel : nat) : M Sys unit :=
  try_catch
    (authResponse <- liftW (refreshToken env fuel) ;;
     u <- prop authResponse "user" ;;
     token <- prop authResponse "sessionToken" ;;
     dispatchAuth (AuthContext.SIGN_IN_SUCCESS u token))
    (fun _ => dispatchAuth AuthContext.SIGN_OUT).

(** *** usePhotoTransform *)

Definition setState (f : TransformState -> TransformState) : M Sys unit :=
  modify (fun s => set_transformState (f (transformState s)) s).

(** [checkCredits] and [state.currentImage] read the values of the last
    render; the hook is re-rendered on every change of either container, so
    these are the current ones when a call starts. *)
Definition checkCredits (s : Sys) : bool :=
  at_least_one (CreditContext.photoCredits (creditState s)).

Definition no_image_message : string :=
  "No image selected. Please take or select a photo first.".

Definition insufficient_credits_message : string :=
  "Insufficient credits. Please purchase more credits to continue.".

Definition transformPhoto (fuel : nat) (backgroundType : BackgroundType)
  (customPrompt : option string) : M Sys TransformOutcome :=
  try_catch
    (image <- gets (fun s => currentImage (transformState s)) ;;
     match image with
     | Some imageUri =>
         if truthy_token image then
           enough <- gets checkCredits ;;
           if enough then
             setState (fun prev =>
               mkTransformState true (currentImage prev) (result prev) JNull
                 (Some "Uploading your photo...")) ;;
             consumeCredit ;;
             setState (fun prev =>
               mkTransformState (isTransforming prev) (currentImage prev)
                 (result prev) (error prev) (Some "AI is working its magic...")) ;;
             res <- liftW (api_transformPhoto fuel imageUri backgroundType customPrompt) ;;
             setState (fun prev =>
               mkTransformState false (currentImage prev) res (error prev) None) ;;
             refreshBalance fuel ;;
             ret (mkTransformOutcome true res JUndefined)
           else
             setState (fun prev =>
               mkTransformState (isTransforming prev) (currentImage prev)
                 (result prev) (JStr insufficient_credits_message) (progress prev)) ;;
             ret (mkTransformOutcome false JUndefined (JStr insufficient_credits_message))
         else
           setState (fun prev =>
             mkTransformState (isTransforming prev) (currentImage prev)
               (result prev) (JStr no_image_message) (progress prev)) ;;
           ret (mkTransformOutcome false JUndefined (JStr no_image_message))
     | None =>
         setState (fun prev =>
           mkTransformState (isTransforming prev) (currentImage prev)
             (result prev) (JStr no_image_message) (progress prev)) ;;
         ret (mkTransformOutcome false JUndefined (JStr no_image_message))
     end)
    (fun error =>
       errorMessage <- handleApiError_m (thrown_js error) ;;
       setState (fun prev =>
         mkTransformState false (currentImage prev) (result prev) errorMessage None) ;;
       refreshBalance fuel ;;
       ret (mkTransformOutcome false JUndefined errorMessage)).

End App.

(** ** The optimistic-decrement / resync cycle

    What the credit container sees of it: [consumeCredit] dispatches
    [CONSUME_CREDIT]; [refreshBalance] dispatches [SET_LOADING true] and
    then, depending on the balance fetch, [SET_BALANCE] with the server's
    values or [SET_ERROR] with a message. *)

Inductive CreditEvent : Type :=
| Decrement
| ResyncOk (credits tier : JsValue)
| ResyncFailed (message : JsValue).

Definition event_actions (e : CreditEvent) : list CreditContext.CreditAction :=
  match e with
  | Decrement => [CreditContext.CONSUME_CREDIT]
  | ResyncOk credits tier =>
      [CreditContext.SET_LOADING true; CreditContext.SET_BALANCE credits tier]
  | ResyncFailed message =>
      [CreditContext.SET_LOADING true; CreditContext.SET_ERROR message]
  end.

(** The server's balance is a credit count. *)
Definition server_balance (e : CreditEvent) : Prop :=
  match e with
  | ResyncOk credits _ => nonneg_int credits
  | _ => True
  end.

(** The states a sequence of dispatches goes through, one per action. *)
Fixpoint observed (s : CreditContext.CreditState)
  (actions : list CreditContext.CreditAction) : list CreditContext.CreditState :=
  match actions with
  | [] => []
  | a :: rest =>
      let s' := CreditContext.creditReducer s a in
      s' :: observed s' rest
  end.

Definition dispatch_all (s : CreditContext.CreditState)
  (actions : list CreditContext.CreditAction) : CreditContext.CreditState :=
  fold_left CreditContext.creditReducer actions s.

(** How often a facade operation was entered. *)
Definition times_called (name : string) (w : World) : nat :=
  count_occ string_dec (calls w) name.


(** A quantity that a computation leaves as it found it. *)
Definition keeps {S A X} (f : S -> X) (m : M S A) : Prop :=
  forall s, f (snd (m s)) = f s.

(** ** Further operations of the API service *)


Section MoreApiService.

Variable env : Env.

Definition validateToken (fuel : nat) : M World JsValue :=
  modify (log_call "validateToken") ;;
  response <- request env fuel (get_request API_ENDPOINTS.auth_validate) ;;
  unwrap response "Token validation failed".

Definition api_purchaseCredits (fuel : nat) (purchaseRequest : JsValue)
  : M World JsValue :=
  modify (log_call "purchaseCredits") ;;
  response <- request env fuel
                (post API_ENDPOINTS.credits_purchase purchaseRequest) ;;
  unwrap response "Credit purchase failed".


End MoreApiService.

(** ** [parseInt(s, 10)]

    Leading white space is skipped, an optional sign follows, then the
    longest run of decimal digits; NaN when there is no digit. *)

Fixpoint leading_digits (s : string) (acc : option Z) : option Z :=
  match s with
  | String c rest =>
      match digit_of c with
      | Some d =>
          leading_digits rest
            (Some (10 * match acc with Some a => a | None => 0 end + d))
      | None => acc
      end
  | EmptyString => acc
  end.

Definition parseInt10 (s : string) : JsNumber :=
  match drop_spaces s with
  | String "-" rest =>
      match leading_digits rest None with
      | Some z => JInt (- z)
      | None => JNaN
      end
  | String "+" rest =>
      match leading_digits rest None with
      | Some z => JInt z
      | None => JNaN
      end
  | t =>
      match leading_digits t None with
      | Some z => JInt z
      | None => JNaN
      end
  end.

(** ** The rest of the providers *)

(** The result of a call into the platform (Apple authentication): a
    rejection or a value. *)
Definition external {S A} (r : Thrown + A) : M S A :=
  match r with
  | inl e => throw e
  | inr a => ret a
  end.

(** [try { m } finally { f }]. *)
Definition try_finally {S A} (m : M S A) (f : M S unit) : M S A :=
  fun s =>
    match m s with
    | (OutOfFuel, s') => (OutOfFuel, s')
    | (o, s') =>
        match f s' with
        | (Ret _, s'') => (o, s'')
        | (Throw e, s'') => (Throw e, s'')
        | (OutOfFuel, s'') => (OutOfFuel, s'')
        end
    end.

Module SubscriptionTier.
Inductive paid : Type := standard | pro.
Definition name (t : paid) : string :=
  match t with
  | standard => "standard"
  | pro => "pro"
  end.
End SubscriptionTier.

Section Providers.

Variable env : Env.

(** *** CreditProvider *)

(** [dispatch({ type: "ADD_PURCHASE", payload })] for the payload as
    [apiService.purchaseCredits] returns it: the reducer's case, with its
    property read on a value that is not an object as well. *)
Definition dispatchPurchase (payload : JsValue) : M Sys unit :=
  modify (fun s =>
    set_creditState
      match payload with
      | JObj fields =>
          CreditContext.creditReducer (creditState s)
            (CreditContext.ADD_PURCHASE fields)
      | _ =>
          CreditContext.mkCreditState
            (add (CreditContext.photoCredits (creditState s))
                 (get_opt payload "creditsAwarded"))
            (CreditContext.subscriptionTier (creditState s))
            (CreditContext.availablePackages (creditState s))
            (payload :: CreditContext.purchaseHistory (creditState s))
            (CreditContext.isLoading (creditState s))
            (CreditContext.error (creditState s))
      end s).


(** *** AuthProvider *)

(** [credential] is what [AppleAuthentication.signInAsync] settles on. *)
Definition AuthProvider_signIn (fuel : nat) (credential : Thrown + JsValue)
  : M Sys unit :=
  dispatchAuth AuthContext.SIGN_IN_START ;;
  try_catch
    (credential <- external credential ;;
     identityToken <- prop credential "identityToken" ;;
     fullName <- prop credential "fullName" ;;
     email <- prop credential "email" ;;
     authResponse <-
       liftW (signInWithApple env fuel
                (JObj [("identityToken", or_else identityToken (JStr ""));
                       ("user",
                         JObj [("firstName",
                                 or_else (get_opt fullName "givenName") JUndefined);
                               ("lastName",
                                 or_else (get_opt fullName "familyName") JUndefined);
                               ("email", or_else email JUndefined)])])) ;;
     u <- prop authResponse "user" ;;
     token <- prop authResponse "sessionToken" ;;
     dispatchAuth (AuthContext.SIGN_IN_SUCCESS u token))
    (fun error =>
       errorMessage <- handleApiError_m (thrown_js error) ;;
       dispatchAuth (AuthContext.SIGN_IN_ERROR errorMessage)).

(** [available] is what [AppleAuthentication.isAvailableAsync] settles
    on. *)
Definition checkAppleSignInAvailability (available : Thrown + bool) : M Sys unit :=
  try_catch
    (isAvailable <- external available ;;
     dispatchAuth (AuthContext.SET_AVAILABILITY isAvailable))
    (fun _ => dispatchAuth (AuthContext.SET_AVAILABILITY false)).

Definition checkStoredAuth (fuel : nat) : M Sys unit :=
  try_catch
    (validation <- liftW (validateToken env fuel) ;;
     valid <- prop validation "valid" ;;
     u <- (if truthy valid then prop validation "user" else ret valid) ;;
     if truthy u
     then dispatchAuth (AuthContext.SIGN_IN_SUCCESS u (JStr ""))
     else dispatchAuth (AuthContext.SET_LOADING false))
    (fun _ => dispatchAuth (AuthContext.SET_LOADING false)).

Definition initializeAuth (fuel : nat) (available : Thrown + bool) : M Sys unit :=
  checkAppleSignInAvailability available ;;
  checkStoredAuth fuel.

End Providers.

(** The auth container after a sequence of dispatches. *)
Definition auth_after (s : AuthContext.AuthStateInternal)
  (actions : list AuthContext.AuthAction) : AuthContext.AuthStateInternal :=
  fold_left AuthContext.authReducer actions s.

(** ** The screens

    What the screens add to the application: the alerts shown (title and
    message, newest first), the router calls made (newest first) and the
    flags the screens keep in their own state. *)

Record Ui : Type := mkUi
  { sys : Sys;
    alerts : list (string * string);
    navigation : list (string * string);
    signIn_isLoading : bool;
    main_showError : bool;
    main_showBackgroundModal : bool;
    purchase_showError : bool }.

Definition set_sys (x : Sys) (u : Ui) : Ui :=
  mkUi x (alerts u) (navigation u) (signIn_isLoading u) (main_showError u)
    (main_showBackgroundModal u) (purchase_showError u).

Definition liftS {A} (m : M Sys A) : M Ui A :=
  fun u =>
    match m (sys u) with
    | (o, x) => (o, set_sys x u)
    end.

(** [Alert.alert(title, message, ...)]. *)
Definition alert (title message : string) : M Ui unit :=
  modify (fun u =>
    mkUi (sys u) ((title, message) :: alerts u) (navigation u)
      (signIn_isLoading u) (main_showError u) (main_showBackgroundModal u)
      (purchase_showError u)).

(** [router.replace(route)], [router.push(route)]. *)
Definition router (call route : string) : M Ui unit :=
  modify (fun u =>
    mkUi (sys u) (alerts u) ((call, route) :: navigation u)
      (signIn_isLoading u) (main_showError u) (main_showBackgroundModal u)
      (purchase_showError u)).

Definition set_signIn_isLoading (b : bool) : M Ui unit :=
  modify (fun u =>
    mkUi (sys u) (alerts u) (navigation u) b (main_showError u)
      (main_showBackgroundModal u) (purchase_showError u)).

Definition set_main_showError (b : bool) : M Ui unit :=
  modify (fun u =>
    mkUi (sys u) (alerts u) (navigation u) (signIn_isLoading u) b
      (main_showBackgroundModal u) (purchase_showError u)).

Definition set_main_showBackgroundModal (b : bool) : M Ui unit :=
  modify (fun u =>
    mkUi (sys u) (alerts u) (navigation u) (signIn_isLoading u)
      (main_showError u) b (purchase_showError u)).

Definition set_purchase_showError (b : bool) : M Ui unit :=
  modify (fun u =>
    mkUi (sys u) (alerts u) (navigation u) (signIn_isLoading u)
      (main_showError u) (main_showBackgroundModal u) b).

Module CREDIT_PACKAGES.
Inductive key : Type := basic | value | pro.
Definition name (k : key) : string :=
  match k with
  | basic => "basic"
  | value => "value"
  | pro => "pro"
  end.
Definition credits (k : key) : Z :=
  match k with
  | basic => 8
  | value => 17
  | pro => 45
  end.
End CREDIT_PACKAGES.

Section Screens.

Variable env : Env.

(** [MockStoreKit.requestPurchase]. *)
Definition MockStoreKit_requestPurchase (now : Z) (productId : string)
  : M Ui JsValue :=
  alert "Mock Purchase" ("Would purchase: " ++ productId) ;;
  ret (JObj [("success", JBool true);
             ("transactionId", JStr ("mock_" ++ to_string (int now)))]).

(** [purchaseCredits] of the credit provider. *)
Definition purchaseCredits (fuel : nat) (now : Z) (packageId : string)
  : M Ui bool :=
  try_catch
    (liftS (dispatchCredit (CreditContext.SET_LOADING true)) ;;
     mockResult <- MockStoreKit_requestPurchase now packageId ;;
     success <- prop mockResult "success" ;;
     if truthy success then
       transactionId <- prop mockResult "transactionId" ;;
       result <- liftS (liftW (api_purchaseCredits env fuel
                   (JObj [("packageId", JNum (parseInt10 packageId));
                          ("appleReceiptData", transactionId)]))) ;;
       liftS (dispatchPurchase result) ;;
       ret true
     else ret false)
    (fun error =>
       errorMessage <- handleApiError_m (thrown_js error) ;;
       liftS (dispatchCredit (CreditContext.SET_ERROR errorMessage)) ;;
       ret false).

(** [PurchaseScreen.handlePurchase]. *)
Definition PurchaseScreen_handlePurchase (fuel : nat) (now : Z)
  (packageKey : CREDIT_PACKAGES.key) : M Ui unit :=
  try_catch
    (let mockPackageId :=
       match packageKey with
       | CREDIT_PACKAGES.basic => 1
       | CREDIT_PACKAGES.value => 2
       | CREDIT_PACKAGES.pro => 3
       end in
     purchaseCredits fuel now (to_string (int mockPackageId)) ;;
     alert "Purchase Successful! 🎉"
       ("You've received "
        ++ to_string (int (CREDIT_PACKAGES.credits packageKey)) ++ " credits!"))
    (fun _ => set_purchase_showError true).

(** [SignInScreen.handleAppleSignIn]. *)
Definition SignInScreen_handleAppleSignIn (fuel : nat)
  (credential : Thrown + JsValue) : M Ui unit :=
  isAvailable <- gets (fun u => AuthContext.isAvailable (authState (sys u))) ;;
  if negb isAvailable then
    alert "Apple Sign-In Unavailable"
      "Apple Sign-In is not available on this device. Please try again or contact support."
  else
    try_finally
      (try_catch
         (set_signIn_isLoading true ;;
          liftS (AuthProvider_signIn env fuel credential) ;;
          router "replace" "/(app)")
         (fun error =>
            if is_str (get_opt (thrown_js error) "code") "ERR_CANCELED" then ret tt
            else
              alert "Sign-In Failed"
                (to_string (or_else (get_opt (thrown_js error) "message")
                              (JStr "Please try again.")))))
      (set_signIn_isLoading false).

(** [MainScreen.handleStartTransform]. *)
Definition MainScreen_handleStartTransform : M Ui unit :=
  currentImage <- gets (fun u => PhotoTransform.currentImage (transformState (sys u))) ;;
  if negb (truthy_token currentImage) then
    alert "No Photo" "Please select a photo first."
  else
    hasCredits <- gets (fun u => checkCredits (sys u)) ;;
    if negb hasCredits then router "push" "/(app)/purchase"
    else set_main_showBackgroundModal true.

(** [MainScreen.handleConfirmTransform]. *)
Definition MainScreen_handleConfirmTransform (fuel : nat)
  (backgroundType : PhotoTransform.BackgroundType) (customPrompt : option string)
  : M Ui unit :=
  set_main_showBackgroundModal false ;;
  result <- liftS (transformPhoto env fuel backgroundType customPrompt) ;;
  if negb (PhotoTransform.success result) && truthy (PhotoTransform.outcome_error result)
  then set_main_showError true
  else ret tt.

End Screens.

(** ** Typed errors

    The values [handleApiError] is written for: the server's error object
    is [error.response.data.error], and a message, where there is one, is a
    string ([ApiResponse.error.message], [Error.message]). *)

Definition server_error (error : JsValue) : JsValue :=
  get_opt (get_opt (get_opt error "response") "data") "error".

Definition string_or_falsy (v : JsValue) : bool :=
  match v with
  | JStr _ => true
  | _ => negb (truthy v)
  end.

Definition typed_error (error : JsValue) : Prop :=
  nullish error = false
  /\ string_or_falsy (get_opt error "message") = true
  /\ string_or_falsy (get_opt (server_error error) "message") = true.

(** An answer other than a 401 response. *)
Definition not_401 (a : NetResult) : Prop :=
  match a with
  | Answer r => status r <> 401
  | NoAnswer _ => True
  end.

(** ** Scenarios *)

Definition reliable_storage : nat -> bool := fun _ => false.

Definition broken_storage : nat -> bool := fun _ => true.

Definition envelope_ok (payload : JsValue) : Response :=
  mkResponse 200 (JObj [("success", JBool true); ("data", payload)]).

Definition envelope_error (code : Z) (message errorCode : string) : Response :=
  mkResponse code
    (JObj [("success", JBool false);
           ("error", JObj [("message", JStr message); ("code", JStr errorCode)])]).

Definition unauthorized : Response :=
  envelope_error 401 "Session expired" "INVALID_TOKEN".

Definition auth_payload (token : string) : JsValue :=
  JObj [("user", JObj [("publicId", JStr "u-1"); ("photoCredits", int 3)]);
        ("sessionToken", JStr token)].

Definition balance_payload (credits : Z) : JsValue :=
  JObj [("photoCredits", int credits); ("subscriptionTier", JStr "none")].

Definition is_refresh (r : Request) : bool :=
  String.eqb (url r) API_ENDPOINTS.auth_refresh.

Definition fresh_world (token : option string) : World :=
  mkWorld token [] 0 [].

Definition signed_in (token : string) : AuthContext.AuthStateInternal :=
  AuthContext.mkAuthState (JObj [("publicId", JStr "u-1")]) (JStr token)
    false JNull true.

(** A signed-in application holding [credits] credits and the picked
    image [image]. *)
Definition app (w : World) (credits : Z) (image : option string) : Sys :=
  mkSys w
    (CreditContext.mkCreditState (int credits) (JStr "none") [] [] false JNull)
    (signed_in "tok-1")
    (PhotoTransform.mkTransformState false image JNull JNull None).

(** A backend that cannot be reached. *)
Definition env_offline : Env :=
  mkEnv (fun _ _ => NoAnswer "Network Error") reliable_storage.

(** A backend that answers every request with 401. *)
Definition env_unauthorized : Env :=
  mkEnv (fun _ _ => Answer unauthorized) reliable_storage.

(** A reachable backend on a device whose secure store rejects every
    operation. *)
Definition env_broken_storage : Env :=
  mkEnv (fun _ _ => Answer (envelope_ok JNull)) broken_storage.

Definition transform_payload : JsValue :=
  JObj [("publicId", JStr "t-1"); ("backgroundType", JStr "cartoon");
        ("status", JStr "completed"); ("creditsUsed", int 1)].

Definition payload_for (u : string) (credits : Z) : JsValue :=
  if String.eqb u API_ENDPOINTS.credits_balance then balance_payload credits
  else if String.eqb u API_ENDPOINTS.transform_create then transform_payload
  else JObj [].

Definition carries (r : Request) (token : string) : bool :=
  match authorization r with
  | Some a => String.eqb a (bearer token)
  | None => false
  end.

(** A backend whose only valid session token is [valid], holding [credits]
    credits for the user: sign-in is public, the refresh endpoint answers
    [refreshed], every other endpoint answers 401 unless the request carries
    the valid token. *)
Definition backend (valid : string) (credits : Z) (refreshed : NetResult)
  : list Request -> Request -> NetResult :=
  fun _ r =>
    if is_refresh r then refreshed
    else if String.eqb (url r) API_ENDPOINTS.auth_apple
         then Answer (envelope_ok (auth_payload valid))
    else if carries r valid then Answer (envelope_ok (payload_for (url r) credits))
    else Answer unauthorized.

(** The stored token has expired and the refresh endpoint hands out the
    valid one. *)
Definition env_refreshable : Env :=
  mkEnv (backend "tok-2" 2 (Answer (envelope_ok (auth_payload "tok-2"))))
        reliable_storage.

(** The stored token has expired and the refresh endpoint is failing. *)
Definition env_refresh_down : Env :=
  mkEnv (backend "tok-2" 2
           (Answer (envelope_error 500 "Internal error" "SERVER_ERROR")))
        reliable_storage.

(** The refresh endpoint works, and the other endpoints answer 401 to the
    first two requests they get. *)
Definition env_two_rejections : Env :=
  mkEnv (fun log r =>
           if is_refresh r then Answer (envelope_ok (auth_payload "tok-2"))
           else if (List.length (filter (fun q => negb (is_refresh q)) log) <? 2)%nat
                then Answer unauthorized
                else Answer (envelope_ok (payload_for (url r) 2)))
        reliable_storage.

Definition credits_request : Request :=
  get_request API_ENDPOINTS.credits_balance.

Definition refresh_request : Request :=
  post API_ENDPOINTS.auth_refresh JUndefined.

(** A computation that ends, with a value or a thrown value, from every
    state. *)
Definition completes {S A} (m : M S A) : Prop :=
  forall s, fst (m s) <> OutOfFuel.

(** A backend that never answers 401. *)
Definition never_401 (env : Env) : Prop :=
  forall log r resp, server env log r = Answer resp -> status resp <> 401.

Definition picked_image : string := "file:///photo.jpg".

(** The refresh endpoint hands out an empty token. *)
Definition env_empty_token : Env :=
  mkEnv (backend "tok-2" 2 (Answer (envelope_ok (auth_payload ""))))
        reliable_storage.

(** A backend that validates the stored session and names its user. *)
Definition env_validating : Env :=
  mkEnv (fun _ _ =>
           Answer (envelope_ok
                     (JObj [("valid", JBool true);
                            ("user", JObj [("publicId", JStr "u-1")])])))
        reliable_storage.

(** The screens on top of an application, nothing shown yet. *)
Definition screens (x : Sys) : Ui := mkUi x [] [] false false false false.

(** A backend that accepts every purchase with a response of the declared
    shape. *)
Definition purchase_payload : JsValue :=
  JObj (CreditContext.purchase_fields
          (CreditContext.mkCreditPurchaseResponse "p-1" 8 1 "completed"
             "receipt" "2024-01-01T00:00:00.000Z")).

Definition env_shop : Env :=
  mkEnv (fun _ _ => Answer (envelope_ok purchase_payload)) reliable_storage.

(** The second world has sent what the first had, and possibly more. *)
Definition extends (w w' : World) : Prop :=
  exists l, sent w' = (l ++ sent w)%list.

(** A computation that never takes back a request that was sent. *)
Definition only_sends {A} (m : M World A) : Prop :=
  forall w, extends w (snd (m w)).

(** A computation that does not throw. *)
Definition never_throws {S A} (m : M S A) : Prop :=
  forall s e, fst (m s) <> Throw e.

(** Between the two worlds the refreshes started have not become fewer,
    and the stored token is the same unless a refresh was started. *)
Definition token_follows_refresh (w w' : World) : Prop :=
  (times_called "refreshToken" w <= times_called "refreshToken" w')%nat
  /\ (times_called "refreshToken" w' = times_called "refreshToken" w ->
      store w' = store w).

(** Between the two worlds a refresh was started. *)
Definition refresh_started (w w' : World) : Prop :=
  (times_called "refreshToken" w < times_called "refreshToken" w')%nat.

(** The refreshes started so far. *)
Definition refreshes (w : World) : nat := times_called "refreshToken" w.

(** A computation during which the refreshes started do not become
    fewer. *)
Definition counts_up {A} (m : M World A) : Prop :=
  forall w, (refreshes w <= refreshes (snd (m w)))%nat.

(** ** The decrement / resync cycle against the backend *)

(** The two operations of the cycle, as the hook issues them:
    [consumeCredit()] and [refreshBalance()]. *)
Inductive CycleOp : Type :=
| OptimisticDecrement
| Resync (fuel : nat).

Definition cycle_op (env : Env) (op : CycleOp) : M Sys unit :=
  match op with
  | OptimisticDecrement => consumeCredit
  | Resync fuel => refreshBalance env fuel
  end.

(** The states of the application after each operation of a sequence. *)
Fixpoint cycle (env : Env) (ops : list CycleOp) (s : Sys) : list Sys :=
  match ops with
  | [] => []
  | op :: rest =>
      let s' := snd (cycle_op env op s) in
      s' :: cycle env rest s'
  end.

(** A backend whose balances are credit counts: every answer to a request
    for the balance that passes the checks of the client (a status that
    axios accepts, [success] and [data] truthy) carries an integer >= 0 as
    [photoCredits]. *)
Definition reports_credit_counts (env : Env) : Prop :=
  forall log r response,
    url r = API_ENDPOINTS.credits_balance ->
    server env log r = Answer response ->
    validateStatus (status response) = true ->
    truthy (get_opt (data response) "success") = true ->
    truthy (get_opt (data response) "data") = true ->
    nonneg_int (get_opt (get_opt (data response) "data") "photoCredits").

(** A backend that reports a balance of -5. *)
Definition env_overdrawn : Env :=
  mkEnv (fun _ _ => Answer (envelope_ok (balance_payload (-5)))) reliable_storage.

(** ** Persisting the token the backend returns *)

(** [payload] is the [data] member of an answer that the backend gave,
    with a status that axios accepts, to one of the requests sent up to
    [w']: a request to the URL of [req], with its method and body. *)
Definition answered_by (env : Env) (req : Request) (w' : World)
  (payload : JsValue) : Prop :=
  exists log r response l,
    url r = url req /\ method r = method req /\ body r = body req
    /\ sent w' = (l ++ r :: log)%list
    /\ server env log r = Answer response
    /\ validateStatus (status response) = true
    /\ payload = get_opt (data response) "data".

(** [call] persists the session token that the backend returns for [req].
    Whenever it returns, what it returns is the payload of an answer of the
    backend to that request, with a string [sessionToken], and the secure
    store holds that string.  And it does return, with the payload stored,
    once the backend accepts the request as first sent with an envelope
    that carries a string [sessionToken] and the secure store accepts the
    write (the storage operation after the read of the request
    interceptor). *)
Definition persists_returned_token (env : Env) (call : nat -> M World JsValue)
  (req : Request) : Prop :=
  forall (fuel : nat) (w : World),
    (forall payload w',
       call fuel w = (Ret payload, w') ->
       answered_by env req w' payload
       /\ exists token,
            get payload "sessionToken" = Some (JStr token)
            /\ store w' = Some token)
    /\ (forall response token,
          let first :=
            authorized (if storage_fails env (storage_ops w) then None else store w)
              req in
          server env (sent w) first = Answer response ->
          validateStatus (status response) = true ->
          truthy (get_opt (data response) "success") = true ->
          get_opt (get_opt (data response) "data") "sessionToken" = JStr token ->
          storage_fails env (S (storage_ops w)) = false ->
          exists w',
            call (S fuel) w = (Ret (get_opt (data response) "data"), w')
            /\ sent w' = first :: sent w
            /\ store w' = Some token).

(** ** The request of the auth provider's [signIn]

    The object literal that [signIn] hands to [signInWithApple], for the
    credential the Apple dialog resolved to. *)
Definition signIn_request (credential : JsValue) : JsValue :=
  JObj [("identityToken", or_else (get_opt credential "identityToken") (JStr ""));
        ("user",
          JObj [("firstName",
                  or_else (get_opt (get_opt credential "fullName") "givenName")
                    JUndefined);
                ("lastName",
                  or_else (get_opt (get_opt credential "fullName") "familyName")
                    JUndefined);
                ("email", or_else (get_opt credential "email") JUndefined)])].

(** * Properties *)

(** ** Computations *)

Lemma keeps_ret {S A X} (f : S -> X) (a : A) : keeps f (ret a).
Proof. intros s; reflexivity. Qed.

Lemma keeps_throw {S A X} (f : S -> X) e : keeps f (@throw S A e).
Proof. intros s; reflexivity. Qed.

Lemma keeps_diverge {S A X} (f : S -> X) : keeps f (@diverge S A).
Proof. intros s; reflexivity. Qed.

Lemma keeps_gets {S A X} (f : S -> X) (g : S -> A) : keeps f (gets g).
Proof. intros s; reflexivity. Qed.

Lemma keeps_bind {S A B X} (f : S -> X) (m : M S A) (k : A -> M S B) :
  keeps f m -> (forall a, keeps f (k a)) -> keeps f (bind m k).
Proof.
  intros Hm Hk s. unfold bind. specialize (Hm s).
  destruct (m s) as [[a | e |] s1]; cbn in *; try assumption.
  rewrite Hk. assumption.
Qed.

Lemma keeps_try_catch {S A X} (f : S -> X) (m : M S A) h :
  keeps f m -> (forall e, keeps f (h e)) -> keeps f (try_catch m h).
Proof.
  intros Hm Hh s. unfold try_catch. specialize (Hm s).
  destruct (m s) as [[a | e |] s1]; cbn in *; try assumption.
  rewrite Hh. assumption.
Qed.

Lemma keeps_modify {S X} (f : S -> X) (g : S -> S) :
  (forall s, f (g s) = f s) -> keeps f (modify g).
Proof. intros H s; apply H. Qed.

Lemma keeps_prop {S X} (f : S -> X) v k : keeps f (@prop S v k).
Proof. unfold prop. destruct (get v k); [apply keeps_ret | apply keeps_throw]. Qed.

Lemma keeps_handleApiError_m {S X} (f : S -> X) v : keeps f (@handleApiError_m S v).
Proof.
  unfold handleApiError_m. destruct (handleApiError v); [apply keeps_ret | apply keeps_throw].
Qed.

Lemma bind_Ret {S A B} (m : M S A) (k : A -> M S B) s a s1 :
  m s = (Ret a, s1) -> bind m k s = k a s1.
Proof. intros H. unfold bind. rewrite H. reflexivity. Qed.

Lemma bind_Throw {S A B} (m : M S A) (k : A -> M S B) s e s1 :
  m s = (Throw e, s1) -> bind m k s = (Throw e, s1).
Proof. intros H. unfold bind. rewrite H. reflexivity. Qed.

Lemma bind_OutOfFuel {S A B} (m : M S A) (k : A -> M S B) s s1 :
  m s = (OutOfFuel, s1) -> bind m k s = (OutOfFuel, s1).
Proof. intros H. unfold bind. rewrite H. reflexivity. Qed.

Lemma try_catch_Ret {S A} (m : M S A) h s a s1 :
  m s = (Ret a, s1) -> try_catch m h s = (Ret a, s1).
Proof. intros H. unfold try_catch. rewrite H. reflexivity. Qed.

Lemma try_catch_Throw {S A} (m : M S A) h s e s1 :
  m s = (Throw e, s1) -> try_catch m h s = h e s1.
Proof. intros H. unfold try_catch. rewrite H. reflexivity. Qed.

Lemma try_catch_OutOfFuel {S A} (m : M S A) h s s1 :
  m s = (OutOfFuel, s1) -> try_catch m h s = (OutOfFuel, s1).
Proof. intros H. unfold try_catch. rewrite H. reflexivity. Qed.

(** ** The credit reducer *)

Import CreditContext.

Lemma consume_credit_value (s : CreditState) (z : Z) :
  photoCredits s = int z ->
  photoCredits (creditReducer s CONSUME_CREDIT) = int (Z.max 0 (z - 1)).
Proof. intros H. cbn. rewrite H. reflexivity. Qed.

Lemma set_balance_value (s : CreditState) (credits tier : JsValue) :
  photoCredits (creditReducer s (SET_BALANCE credits tier)) = credits.
Proof. reflexivity. Qed.

Lemma consume_credit_nonneg (s : CreditState) :
  nonneg_int (photoCredits s) ->
  nonneg_int (photoCredits (creditReducer s CONSUME_CREDIT)).
Proof.
  intros [z [Hz Hpos]]. exists (Z.max 0 (z - 1)). split.
  - apply consume_credit_value. exact Hz.
  - lia.
Qed.

(** The actions of the decrement / resync cycle keep the balance a credit
    count. *)
Lemma event_actions_nonneg (e : CreditEvent) (s : CreditState) :
  server_balance e ->
  nonneg_int (photoCredits s) ->
  Forall (fun s' => nonneg_int (photoCredits s')) (observed s (event_actions e))
  /\ nonneg_int (photoCredits (dispatch_all s (event_actions e))).
Proof.
  intros He Hs. destruct e as [| credits tier | message]; cbn in *.
  - split; [constructor; [|constructor]|]; apply consume_credit_nonneg; exact Hs.
  - split; [repeat constructor|]; assumption.
  - split; [repeat constructor|]; assumption.
Qed.

Lemma observed_app (s : CreditState) (l1 l2 : list CreditAction) :
  observed s (l1 ++ l2) = (observed s l1 ++ observed (dispatch_all s l1) l2)%list.
Proof.
  revert s. induction l1 as [| a l1 IH]; intros s; cbn.
  - reflexivity.
  - rewrite IH. reflexivity.
Qed.

(** Every action but [ADD_PURCHASE] keeps the balance a credit count, given
    that a [SET_BALANCE] carries one. *)
Lemma creditReducer_nonneg (s : CreditState) (a : CreditAction) :
  nonneg_int (photoCredits s) ->
  match a with
  | SET_BALANCE credits _ => nonneg_int credits
  | ADD_PURCHASE _ => False
  | _ => True
  end ->
  nonneg_int (photoCredits (creditReducer s a)).
Proof.
  intros Hs Ha. destruct a; cbn in *; try assumption.
  - apply (consume_credit_nonneg s Hs).
  - contradiction.
Qed.

Lemma NaN_not_a_count : ~ nonneg_int (JNum JNaN).
Proof. intros [z [Hz _]]. discriminate Hz. Qed.

(** C5.  [ADD_PURCHASE] with a payload of the declared shape
    [CreditPurchaseResponse] reads the property [creditsAwarded], which that
    shape does not have ([creditsAdded] is the declared one): the sum is
    NaN, whatever the balance and the purchase, so the balance is no longer
    an integer >= 0. *)
Theorem C5_ADD_PURCHASE_yields_NaN :
  forall (z : Z) tier packages history loading err (p : CreditPurchaseResponse),
    photoCredits
      (creditReducer (mkCreditState (int z) tier packages history loading err)
                     (ADD_PURCHASE (purchase_fields p)))
    = JNum JNaN
    /\ ~ nonneg_int (JNum JNaN)
    /\ lookup (purchase_fields p) "creditsAdded" = int (creditsAdded p).
Proof.
  intros. split; [reflexivity | split; [exact NaN_not_a_count | reflexivity]].
Qed.

(** ** [handleApiError] *)

Lemma truthy_string_nonempty (s : string) : truthy (JStr s) = true -> s <> "".
Proof.
  cbn. intros H Hs. subst s. discriminate H.
Qed.

Lemma known_code_message_nonempty code fixed :
  known_code_message code = Some fixed -> fixed <> "".
Proof.
  unfold known_code_message.
  repeat match goal with
         | |- context [if ?b then _ else _] => destruct b
         end; intros H; inversion H; subst; discriminate.
Qed.

Lemma string_or_falsy_truthy v :
  string_or_falsy v = true -> truthy v = true -> exists s, v = JStr s /\ s <> "".
Proof.
  intros Hty Htr. destruct v as [| | b | [z |] | s | f]; cbn in Hty, Htr;
    try discriminate; try (rewrite Htr in Hty; discriminate).
  exists s. split; [reflexivity | apply truthy_string_nonempty; exact Htr].
Qed.

Lemma handleApiError_not_nullish error :
  nullish error = false ->
  handleApiError error =
    if truthy (server_error error) then
      match known_code_message (get_opt (server_error error) "code") with
      | Some fixed => Some (JStr fixed)
      | None => Some (or_else (get_opt (server_error error) "message")
                        (JStr "Something went wrong. Please try again."))
      end
    else if truthy (get_opt error "message") then Some (get_opt error "message")
    else Some (JStr "Network error. Please check your connection.").
Proof.
  intros Hn. unfold handleApiError, server_error, get_opt at 3.
  destruct error; try discriminate Hn; reflexivity.
Qed.

(** C10 (amended).  On every input other than [undefined] and [null] whose
    messages are strings where present, [handleApiError] returns a non-empty
    string: the fixed message of the server's error code when it is one of
    the seven known codes, otherwise the server's message or the generic
    fallback, and without a server error object the error's own message or
    the network fallback. *)
Theorem C10_handleApiError_on_typed_errors :
  forall error, typed_error error ->
    (exists s, handleApiError error = Some (JStr s) /\ s <> "")
    /\ (truthy (server_error error) = true ->
        forall fixed,
          known_code_message (get_opt (server_error error) "code") = Some fixed ->
          handleApiError error = Some (JStr fixed))
    /\ (truthy (server_error error) = true ->
        known_code_message (get_opt (server_error error) "code") = None ->
        handleApiError error =
          Some (or_else (get_opt (server_error error) "message")
                  (JStr "Something went wrong. Please try again.")))
    /\ (truthy (server_error error) = false ->
        handleApiError error =
          Some (or_else (get_opt error "message")
                  (JStr "Network error. Please check your connection.")))
    /\ known_code_message (JStr API_ERROR_CODES.INSUFFICIENT_CREDITS)
         = Some "Insufficient credits. Please purchase more credits to continue."
    /\ known_code_message (JStr API_ERROR_CODES.INVALID_IMAGE)
         = Some "Invalid image format. Please try with a different photo."
    /\ known_code_message (JStr API_ERROR_CODES.TRANSFORMATION_ERROR)
         = Some "Photo transformation failed. Please try again."
    /\ known_code_message (JStr API_ERROR_CODES.AUTHENTICATION_REQUIRED)
         = Some "Please sign in to continue."
    /\ known_code_message (JStr API_ERROR_CODES.INVALID_TOKEN)
         = Some "Session expired. Please sign in again."
    /\ known_code_message (JStr API_ERROR_CODES.RATE_LIMITED)
         = Some "Too many requests. Please try again later."
    /\ known_code_message (JStr API_ERROR_CODES.SERVICE_UNAVAILABLE)
         = Some "Service temporarily unavailable. Please try again later.".
Proof.
  intros error (Hn & Hm & Hsm).
  pose proof (handleApiError_not_nullish error Hn) as Heq.
  split; [| split; [| split; [| split]]].
  - rewrite Heq. destruct (truthy (server_error error)) eqn:Hse.
    + destruct (known_code_message _) as [fixed |] eqn:Hk.
      * exists fixed. split; [reflexivity |].
        apply (known_code_message_nonempty _ _ Hk).
      * unfold or_else.
        destruct (truthy (get_opt (server_error error) "message")) eqn:Ht.
        -- destruct (string_or_falsy_truthy _ Hsm Ht) as [s [Hs Hne]].
           exists s. rewrite Hs. split; [reflexivity | exact Hne].
        -- eexists. split; [reflexivity | discriminate].
    + destruct (truthy (get_opt error "message")) eqn:Ht.
      * destruct (string_or_falsy_truthy _ Hm Ht) as [s [Hs Hne]].
        exists s. rewrite Hs. split; [reflexivity | exact Hne].
      * eexists. split; [reflexivity | discriminate].
  - intros Hse fixed Hk. rewrite Heq, Hse, Hk. reflexivity.
  - intros Hse Hk. rewrite Heq, Hse, Hk. reflexivity.
  - intros Hse. rewrite Heq, Hse. unfold or_else.
    destruct (truthy (get_opt error "message")); reflexivity.
  - repeat split; reflexivity.
Qed.

Lemma C10_witness :
  exists s,
    handleApiError
      (thrown_js (AxiosError "Request failed with status code 429" None
                    (Some (envelope_error 429 "Slow down" "RATE_LIMITED"))))
    = Some (JStr s) /\ s <> "".
Proof.
  apply (C10_handleApiError_on_typed_errors
           (thrown_js (AxiosError "Request failed with status code 429" None
                         (Some (envelope_error 429 "Slow down" "RATE_LIMITED"))))).
  repeat split; reflexivity.
Defined.

(** C10 as stated fails: on [undefined] the read of [error.response] is a
    [TypeError], and a truthy message that is not a string is returned as it
    is. *)
Lemma C10_counterexample :
  ~ (forall error, exists s, handleApiError error = Some (JStr s) /\ s <> "")
  /\ handleApiError JUndefined = None
  /\ handleApiError JNull = None
  /\ handleApiError (JObj [("message", int 5)]) = Some (int 5).
Proof.
  split; [| repeat split; reflexivity].
  intros H. destruct (H JUndefined) as [s [Hs _]]. discriminate Hs.
Qed.

(** ** Local rejection of a transform without credits *)

Import PhotoTransform.

Lemma truthy_token_Some (t : string) : t <> "" -> truthy_token (Some t) = true.
Proof.
  intros H. cbn. destruct (String.eqb_spec t ""); [contradiction | reflexivity].
Qed.




(** ** Sign-out *)

(** C9 (amended).  [signOut] of the auth provider always ends normally in
    the state [SignedOut], sends nothing, and asks the secure store once to
    delete the session token; the token is gone when that deletion
    succeeds, and is still stored when the store rejects it (the rejection
    is logged and dropped). *)
Theorem C9_signOut_completes_locally :
  forall env (s : Sys),
    exists s',
      AuthProvider_signOut env s = (Ret tt, s')
      /\ AuthContext.SignedOut (authState s')
      /\ sent (world s') = sent (world s)
      /\ storage_ops (world s') = S (storage_ops (world s))
      /\ store (world s') =
           if storage_fails env (storage_ops (world s)) then store (world s)
           else None.
Proof.
  intros env s.
  unfold AuthProvider_signOut, signOut, clearSessionToken, deleteItemAsync,
    liftW, dispatchAuth, try_catch, bind, modify, ret. cbn.
  destruct (storage_fails env (storage_ops (world s))); cbn;
    eexists; repeat split; reflexivity.
Qed.

(** C9 as stated fails in its storage-error case: the auth state is
    [SignedOut] while the secure store still holds the token. *)
Lemma C9_counterexample :
  ~ (forall env s,
       exists s', AuthProvider_signOut env s = (Ret tt, s')
                  /\ store (world s') = None
                  /\ AuthContext.SignedOut (authState s'))
  /\ store (world (snd (AuthProvider_signOut env_broken_storage
                          (app (fresh_world (Some "tok-1")) 3 None))))
     = Some "tok-1".
Proof.
  split; [| reflexivity].
  intros H.
  destruct (H env_broken_storage (app (fresh_world (Some "tok-1")) 3 None))
    as [s' [Hrun [Hstore _]]].
  cbv in Hrun. inversion Hrun; subst s'. discriminate Hstore.
Qed.

(** ** The API service *)

Section ApiServiceFacts.

Variable env : Env.

Lemma getStoredSessionToken_run (w : World) :
  getStoredSessionToken env w =
    (Ret (if storage_fails env (storage_ops w) then None else store w),
     tick_storage w).
Proof.
  unfold getStoredSessionToken, try_catch, getItemAsync.
  destruct (storage_fails env (storage_ops w)); reflexivity.
Qed.

Lemma clearSessionToken_run (w : World) :
  clearSessionToken env w =
    (Ret tt,
     if storage_fails env (storage_ops w) then tick_storage w
     else set_store None (tick_storage w)).
Proof.
  unfold clearSessionToken, try_catch, deleteItemAsync.
  destruct (storage_fails env (storage_ops w)); reflexivity.
Qed.

Lemma storeSessionToken_Ret (token : JsValue) (w w' : World) :
  storeSessionToken env token w = (Ret tt, w') ->
  exists t, token = JStr t /\ w' = set_store (Some t) (tick_storage w).
Proof.
  unfold storeSessionToken, try_catch, setItemAsync, throw.
  destruct token; try discriminate.
  destruct (storage_fails env (storage_ops w)); try discriminate.
  intros H. inversion H. eexists; split; reflexivity.
Qed.

Lemma on_request_run (config : Request) (w : World) :
  on_request env config w =
    (Ret (authorized (if storage_fails env (storage_ops w) then None else store w)
            config),
     tick_storage w).
Proof.
  unfold on_request. rewrite (bind_Ret _ _ _ _ _ (getStoredSessionToken_run w)).
  reflexivity.
Qed.

Lemma request_S (fuel : nat) (config : Request) (w : World) :
  request env (S fuel) config w =
    bind (on_request env config)
      (fun config' => try_catch (send env config') (on_rejected env (request env fuel)))
      w.
Proof. reflexivity. Qed.

Lemma prop_Ret {S} (v : JsValue) (k : string) (s s' : S) (x : JsValue) :
  prop v k s = (Ret x, s') -> get v k = Some x /\ s' = s.
Proof.
  unfold prop. destruct (get v k); cbn; intros H; inversion H; subst; auto.
Qed.

Lemma bind_Ret_inv {S A B} (m : M S A) (k : A -> M S B) s b s' :
  bind m k s = (Ret b, s') ->
  exists a s1, m s = (Ret a, s1) /\ k a s1 = (Ret b, s').
Proof.
  unfold bind. destruct (m s) as [[a | e |] s1]; try discriminate.
  intros H. exists a, s1. split; [reflexivity | exact H].
Qed.

(** A facade operation that stores the token of its payload before it
    returns: the shape shared by [signInWithApple] and [refreshToken]. *)
Lemma store_then_return (m : M World JsValue) (w w' : World) (payload : JsValue) :
  bind m (fun p =>
    bind (prop p "sessionToken") (fun token =>
      bind (storeSessionToken env token) (fun _ => ret p))) w = (Ret payload, w') ->
  exists token, get payload "sessionToken" = Some (JStr token)
                /\ store w' = Some token.
Proof.
  intros H.
  apply bind_Ret_inv in H. destruct H as (p & w1 & _ & H).
  apply bind_Ret_inv in H. destruct H as (token & w2 & Hprop & H).
  apply bind_Ret_inv in H. destruct H as ([] & w3 & Hstore & H).
  apply prop_Ret in Hprop. destruct Hprop as [Hget _].
  apply storeSessionToken_Ret in Hstore. destruct Hstore as (t & Ht & Hw3).
  inversion H; subst. exists t. split; [exact Hget | reflexivity].
Qed.

End ApiServiceFacts.

(** ** The response interceptor *)

Section Interceptor.

Variable env : Env.

Lemma send_401 (config : Request) (w : World) (r : Response) :
  server env (sent w) config = Answer r ->
  status r = 401 ->
  send env config w =
    (Throw (AxiosError "Request failed with status code 401" (Some config) (Some r)),
     log_sent config w).
Proof.
  intros Hs H401. unfold send, settle. rewrite Hs, H401. reflexivity.
Qed.

(** What the rejection handler does with a 401 once the refresh it started
    has failed. *)
Lemma on_rejected_refresh_failed (fuel : nat) (config : Request) (r : Response)
  (w w2 : World) (message : string) (e : Thrown) :
  status r = 401 ->
  refreshToken env fuel w = (Throw e, w2) ->
  on_rejected env (request env fuel)
    (AxiosError message (Some config) (Some r)) w =
    (Throw e, snd (clearSessionToken env w2)).
Proof.
  intros H401 Hrefresh. unfold on_rejected. cbn [error_config error_status].
  rewrite H401. cbn [is_int int Z.eqb Pos.eqb].
  unfold refreshToken in Hrefresh.
  erewrite bind_Throw; [reflexivity |].
  erewrite try_catch_Throw.
  2:{ erewrite bind_Throw; [reflexivity | exact Hrefresh]. }
  rewrite clearSessionToken_run. unfold bind.
  rewrite clearSessionToken_run. reflexivity.
Qed.

End Interceptor.

(** C6 (amended).  When a request is answered 401 and the refresh-token
    operation the interceptor then starts fails, the interceptor asks the
    secure store to delete the session token (it is gone unless the store
    rejects the deletion) and rejects with the error of the failed refresh;
    nothing is sent after the refresh, so the original request is not
    resent. *)
Theorem C6_refresh_failure_clears_and_rethrows :
  forall env fuel (config config' : Request) (w w1 w2 : World)
         (r : Response) (e : Thrown),
    on_request env config w = (Ret config', w1) ->
    server env (sent w1) config' = Answer r ->
    status r = 401 ->
    refreshToken env fuel (log_sent config' w1) = (Throw e, w2) ->
    exists w',
      request env (S fuel) config w = (Throw e, w')
      /\ sent w' = sent w2
      /\ calls w' = calls w2
      /\ store w' = if storage_fails env (storage_ops w2) then store w2 else None.
Proof.
  intros env fuel config config' w w1 w2 r e Hreq Hserver H401 Hrefresh.
  exists (snd (clearSessionToken env w2)). split.
  - rewrite request_S. rewrite (bind_Ret _ _ _ _ _ Hreq).
    rewrite (try_catch_Throw _ _ _ _ _ (send_401 env config' w1 r Hserver H401)).
    apply (on_rejected_refresh_failed env fuel config' r _ w2 _ e H401 Hrefresh).
  - rewrite clearSessionToken_run. cbn [snd].
    destruct (storage_fails env (storage_ops w2)); repeat split; reflexivity.
Qed.

Lemma C6_witness :
  exists w',
    request env_refresh_down 2 credits_request (fresh_world (Some "tok-1"))
    = (Throw (AxiosError "Request failed with status code 500"
                (Some (with_authorization refresh_request "Bearer tok-1"))
                (Some (envelope_error 500 "Internal error" "SERVER_ERROR"))), w')
    /\ sent w' = [with_authorization refresh_request "Bearer tok-1";
                  with_authorization credits_request "Bearer tok-1"]
    /\ calls w' = ["refreshToken"]
    /\ store w' = None.
Proof.
  apply (C6_refresh_failure_clears_and_rethrows env_refresh_down 1
           credits_request (with_authorization credits_request "Bearer tok-1")
           (fresh_world (Some "tok-1"))
           (tick_storage (fresh_world (Some "tok-1")))
           (mkWorld (Some "tok-1")
              [with_authorization refresh_request "Bearer tok-1";
               with_authorization credits_request "Bearer tok-1"]
              2 ["refreshToken"])
           unauthorized);
    reflexivity.
Defined.

(** C6 as stated fails: the error that reaches the caller is the one of
    the failed refresh call (a 500 on [/auth/refresh] here), not the 401 the
    original request got. *)
Lemma C6_counterexample :
  let thrown :=
    fst (request env_refresh_down 2 credits_request (fresh_world (Some "tok-1"))) in
  let original : Thrown :=
    AxiosError "Request failed with status code 401"
      (Some (with_authorization credits_request "Bearer tok-1"))
      (Some unauthorized) in
  thrown = Throw (AxiosError "Request failed with status code 500"
                    (Some (with_authorization refresh_request "Bearer tok-1"))
                    (Some (envelope_error 500 "Internal error" "SERVER_ERROR")))
  /\ thrown <> Throw original
  /\ fst (send env_refresh_down (with_authorization credits_request "Bearer tok-1")
            (fresh_world (Some "tok-1"))) = Throw original.
Proof.
  cbv zeta. repeat split; try reflexivity.
  intros H. vm_compute in H. discriminate H.
Qed.

Section SingleRound.

Variable env : Env.

Hypothesis storage_works : forall n, storage_fails env n = false.

Lemma get_of_truthy (v : JsValue) (k : string) :
  truthy (get_opt v k) = true -> get v k = Some (get_opt v k).
Proof.
  unfold get_opt. destruct (get v k); [reflexivity | discriminate].
Qed.

Lemma get_of_string (v : JsValue) (k s : string) :
  get_opt v k = JStr s -> get v k = Some (JStr s).
Proof.
  unfold get_opt. destruct (get v k); intros H; [rewrite H; reflexivity | discriminate].
Qed.

Lemma on_request_works (config : Request) (w : World) :
  on_request env config w = (Ret (authorized (store w) config), tick_storage w).
Proof. rewrite on_request_run, storage_works. reflexivity. Qed.

Lemma unwrap_ok (r : Response) (fallback : string) (w : World) :
  truthy (get_opt (data r) "success") = true ->
  truthy (get_opt (data r) "data") = true ->
  unwrap r fallback w = (Ret (get_opt (data r) "data"), w).
Proof.
  intros Hs Hd. unfold unwrap, prop, bind.
  rewrite (get_of_truthy _ _ Hs). cbn. rewrite Hs.
  rewrite (get_of_truthy _ _ Hd). cbn. rewrite Hd. reflexivity.
Qed.

(** A request whose answer is not a 401 settles on that answer, with
    nothing else sent. *)
Lemma request_settles (fuel : nat) (config : Request) (w : World) (a : NetResult) :
  server env (sent w) (authorized (store w) config) = a ->
  not_401 a ->
  request env (S fuel) config w =
    (settle (authorized (store w) config) a,
     log_sent (authorized (store w) config) (tick_storage w)).
Proof.
  intros Ha Hno. rewrite request_S.
  rewrite (bind_Ret _ _ _ _ _ (on_request_works config w)).
  unfold try_catch, send. cbn [sent tick_storage]. rewrite Ha.
  destruct a as [r | message]; cbn [settle].
  - destruct (validateStatus (status r)); [reflexivity |].
    unfold on_rejected. cbn [error_config error_status is_int int].
    cbn in Hno. apply Z.eqb_neq in Hno. rewrite Hno. reflexivity.
  - reflexivity.
Qed.

(** The refresh-token operation on a backend that accepts it. *)
Lemma refreshToken_accepted (fuel : nat) (w : World) (r : Response) (token : string) :
  server env (sent w) (authorized (store w) refresh_request) = Answer r ->
  validateStatus (status r) = true ->
  truthy (get_opt (data r) "success") = true ->
  truthy (get_opt (data r) "data") = true ->
  get_opt (get_opt (data r) "data") "sessionToken" = JStr token ->
  refreshToken env (S fuel) w =
    (Ret (get_opt (data r) "data"),
     mkWorld (Some token) (authorized (store w) refresh_request :: sent w)
       (S (S (storage_ops w))) ("refreshToken" :: calls w)).
Proof.
  intros Hserver Hvalid Hs Hd Htoken.
  assert (H401 : not_401 (Answer r)).
  { cbn. intros H. rewrite H in Hvalid. discriminate Hvalid. }
  unfold refreshToken, refreshToken_via.
  rewrite (bind_Ret (modify (log_call "refreshToken")) _ w tt
             (log_call "refreshToken" w) eq_refl).
  fold refresh_request.
  pose proof (request_settles fuel refresh_request (log_call "refreshToken" w)
                (Answer r) Hserver H401) as Hreq.
  cbn [settle store log_call] in Hreq. rewrite Hvalid in Hreq.
  rewrite (bind_Ret _ _ _ _ _ Hreq).
  rewrite (bind_Ret _ _ _ _ _ (unwrap_ok r _ _ Hs Hd)).
  unfold prop. rewrite (get_of_string _ _ _ Htoken).
  unfold bind, ret, storeSessionToken, try_catch, setItemAsync.
  cbn. rewrite storage_works. reflexivity.
Qed.

End SingleRound.

(** C1 (amended).  With a working secure store: when a request is answered
    401, and the refresh call the interceptor then makes is accepted and
    hands out a non-empty token, and the resent request is answered with
    anything but another 401, then the refresh-token operation has been
    entered once, three requests have been sent in all (the original one,
    the refresh call, and the original one again under the new bearer
    token), the new token is stored, and the caller gets what the resent
    request settled on. *)
Theorem C1_refresh_once_resend_once :
  forall env fuel (config : Request) (w : World) (r1 r2 : Response)
         (token : string) (a3 : NetResult),
    (forall n, storage_fails env n = false) ->
    let first := authorized (store w) config in
    let refresh := authorized (store w) refresh_request in
    let resent := with_authorization first (bearer token) in
    server env (sent w) first = Answer r1 ->
    status r1 = 401 ->
    server env (first :: sent w) refresh = Answer r2 ->
    validateStatus (status r2) = true ->
    truthy (get_opt (data r2) "success") = true ->
    truthy (get_opt (data r2) "data") = true ->
    get_opt (get_opt (data r2) "data") "sessionToken" = JStr token ->
    token <> "" ->
    server env (refresh :: first :: sent w) resent = a3 ->
    not_401 a3 ->
    exists w',
      request env (S (S fuel)) config w = (settle resent a3, w')
      /\ sent w' = resent :: refresh :: first :: sent w
      /\ calls w' = "refreshToken" :: calls w
      /\ store w' = Some token.
Proof.
  intros env fuel config w r1 r2 token a3 Hst first refresh resent
    H1 H401 H2 Hvalid Hs Hd Htoken Hne H3 Hno.
  eexists. split.
  - rewrite request_S.
    rewrite (bind_Ret _ _ _ _ _ (on_request_works env Hst config w)).
    fold first.
    rewrite (try_catch_Throw _ _ _ _ _
               (send_401 env first (tick_storage w) r1 H1 H401)).
    unfold on_rejected. cbn [error_config error_status].
    rewrite H401. cbn [is_int int Z.eqb Pos.eqb].
    pose proof (refreshToken_accepted env Hst fuel
                  (log_sent first (tick_storage w)) r2 token
                  H2 Hvalid Hs Hd Htoken) as Hrefresh.
    unfold refreshToken in Hrefresh.
    erewrite bind_Ret.
    2:{ erewrite try_catch_Ret; [reflexivity |].
        erewrite bind_Ret; [| exact Hrefresh].
        erewrite bind_Ret; [| apply getStoredSessionToken_run].
        cbn [storage_ops]. rewrite Hst. cbn [store].
        rewrite (truthy_token_Some token Hne). reflexivity. }
    cbn beta iota.
    assert (Hsame : authorized (Some token) resent = resent).
    { unfold authorized. rewrite (truthy_token_Some token Hne). reflexivity. }
    erewrite (request_settles env Hst fuel resent _ a3).
    + cbn [store tick_storage log_sent]. rewrite Hsame. reflexivity.
    + cbn [store sent tick_storage log_sent]. rewrite Hsame. exact H3.
    + exact Hno.
  - repeat split; reflexivity.
Qed.

Lemma C1_witness :
  exists w',
    request env_refreshable 2 credits_request (fresh_world (Some "tok-1"))
    = (Ret (envelope_ok (balance_payload 2)), w')
    /\ sent w' = [with_authorization credits_request "Bearer tok-2";
                  with_authorization refresh_request "Bearer tok-1";
                  with_authorization credits_request "Bearer tok-1"]
    /\ calls w' = ["refreshToken"]
    /\ store w' = Some "tok-2".
Proof.
  apply (C1_refresh_once_resend_once env_refreshable 0 credits_request
           (fresh_world (Some "tok-1")) unauthorized
           (envelope_ok (auth_payload "tok-2")) "tok-2"
           (Answer (envelope_ok (balance_payload 2))));
    try reflexivity.
  - discriminate.
  - cbn. lia.
Defined.

(** C1 as stated fails twice.  When the resent request is answered 401
    again, that error does not reach the caller: the interceptor runs for
    the resent request as it did for the first, so the refresh-token
    operation is entered a second time and the request is sent a third
    time.  And when the refresh fails, the request is not resent at all. *)
Lemma C1_counterexample :
  let again :=
    request env_two_rejections 3 credits_request (fresh_world (Some "tok-1")) in
  let down :=
    request env_refresh_down 3 credits_request (fresh_world (Some "tok-1")) in
  fst again = Ret (envelope_ok (balance_payload 2))
  /\ times_called "refreshToken" (snd again) = 2%nat
  /\ List.length (filter (fun q => negb (is_refresh q)) (sent (snd again))) = 3%nat
  /\ times_called "refreshToken" (snd down) = 1%nat
  /\ List.length (filter (fun q => negb (is_refresh q)) (sent (snd down))) = 1%nat.
Proof. cbv zeta. repeat split; vm_compute; reflexivity. Qed.

(** ** A refresh call that is itself answered 401 *)

Lemma times_called_log_call (name : string) (w : World) :
  times_called name (log_call name w) = S (times_called name w).
Proof.
  unfold times_called. cbn [calls log_call].
  apply count_occ_cons_eq. reflexivity.
Qed.

(** On a backend that answers 401 to everything, a request never settles:
    whatever nesting depth the client is given, it is used up by refresh
    calls that are answered 401 in turn. *)
Lemma request_unauthorized (fuel : nat) :
  forall (config : Request) (w : World),
    exists w',
      request env_unauthorized fuel config w = (OutOfFuel, w')
      /\ store w' = store w
      /\ times_called "refreshToken" w' = (times_called "refreshToken" w + fuel)%nat
      /\ sent w' =
           match fuel with
           | O => sent w
           | S n => (repeat (authorized (store w) refresh_request) n
                     ++ authorized (store w) config :: sent w)%list
           end.
Proof.
  induction fuel as [| n IH]; intros config w.
  - exists w. cbn. repeat split; try reflexivity. lia.
  - set (first := authorized (store w) config).
    set (w1 := log_call "refreshToken" (log_sent first (tick_storage w))).
    destruct (IH refresh_request w1) as (w' & Hrun & Hstore & Hcalls & Hsent).
    exists w'. split; [| split; [| split]].
    + rewrite request_S.
      rewrite (bind_Ret _ _ _ _ _
                 (on_request_works env_unauthorized (fun _ => eq_refl) config w)).
      fold first.
      rewrite (try_catch_Throw _ _ _ _ _
                 (send_401 env_unauthorized first (tick_storage w) unauthorized
                    eq_refl eq_refl)).
      unfold on_rejected. cbn [error_config error_status].
      change (is_int (int (status unauthorized)) 401) with true. cbv iota.
      apply bind_OutOfFuel. apply try_catch_OutOfFuel. apply bind_OutOfFuel.
      unfold refreshToken_via.
      rewrite (bind_Ret (modify (log_call "refreshToken")) _ _ tt w1 eq_refl).
      apply bind_OutOfFuel. exact Hrun.
    + rewrite Hstore. reflexivity.
    + rewrite Hcalls. unfold w1. rewrite times_called_log_call.
      unfold times_called. cbn [calls log_sent tick_storage]. lia.
    + rewrite Hsent. unfold w1. cbn [store sent log_call log_sent tick_storage].
      fold first. destruct n as [| m]; [reflexivity |].
      cbn [repeat]. rewrite repeat_cons. rewrite <- app_assoc. reflexivity.
Qed.

(** C2.  With an expired token in the secure store and a backend that
    answers 401 to the refresh call as to everything else, the
    refresh-token operation does not end: for every nesting depth the
    client is allowed, all of it is spent on refresh calls, each started by
    the interceptor for the 401 of the one before.  The stored token is
    never cleared and the auth state never becomes [SignedOut]. *)
Theorem C2_refresh_answered_401_never_ends :
  forall fuel : nat,
    exists (w' : World) (s' : Sys),
      refreshToken env_unauthorized fuel (fresh_world (Some "tok-1"))
      = (OutOfFuel, w')
      /\ store w' = Some "tok-1"
      /\ sent w' = repeat (with_authorization refresh_request "Bearer tok-1") fuel
      /\ times_called "refreshToken" w' = S fuel
      /\ AuthProvider_refreshToken env_unauthorized fuel
           (app (fresh_world (Some "tok-1")) 3 None)
         = (OutOfFuel, s')
      /\ authState s' = signed_in "tok-1"
      /\ store (world s') = Some "tok-1".
Proof.
  intros fuel.
  destruct (request_unauthorized fuel refresh_request
              (log_call "refreshToken" (fresh_world (Some "tok-1"))))
    as (w' & Hrun & Hstore & Hcalls & Hsent).
  assert (Hrefresh :
    refreshToken env_unauthorized fuel (fresh_world (Some "tok-1"))
    = (OutOfFuel, w')).
  { unfold refreshToken, refreshToken_via.
    rewrite (bind_Ret (modify (log_call "refreshToken")) _ _ tt
               (log_call "refreshToken" (fresh_world (Some "tok-1"))) eq_refl).
    apply bind_OutOfFuel. exact Hrun. }
  exists w', (set_world w' (app (fresh_world (Some "tok-1")) 3 None)).
  split; [exact Hrefresh |]. split; [exact Hstore |]. split; [| split; [| split]].
  - rewrite Hsent. destruct fuel as [| n]; [reflexivity |].
    cbn [store sent log_call fresh_world app_nil_r].
    change (authorized (Some "tok-1") refresh_request)
      with (with_authorization refresh_request "Bearer tok-1").
    cbn [repeat]. rewrite repeat_cons. reflexivity.
  - rewrite Hcalls. reflexivity.
  - apply try_catch_OutOfFuel. apply bind_OutOfFuel.
    unfold liftW. cbn [world app]. rewrite Hrefresh. reflexivity.
  - split; [reflexivity | exact Hstore].
Qed.

(** ** Resync after a transform attempt *)

Lemma completes_ret {S A} (a : A) : completes (@ret S A a).
Proof. intros s; discriminate. Qed.

Lemma completes_throw {S A} e : completes (@throw S A e).
Proof. intros s; discriminate. Qed.

Lemma completes_modify {S} (g : S -> S) : completes (modify g).
Proof. intros s; discriminate. Qed.

Lemma completes_gets {S A} (g : S -> A) : completes (gets g).
Proof. intros s; discriminate. Qed.

Lemma completes_bind {S A B} (m : M S A) (k : A -> M S B) :
  completes m -> (forall a, completes (k a)) -> completes (bind m k).
Proof.
  intros Hm Hk s. unfold bind. specialize (Hm s).
  destruct (m s) as [[a | e |] s1]; cbn in *; try discriminate.
  - apply Hk.
  - exfalso. apply Hm. reflexivity.
Qed.

Lemma completes_try_catch {S A} (m : M S A) h :
  completes m -> (forall e, completes (h e)) -> completes (try_catch m h).
Proof.
  intros Hm Hh s. unfold try_catch. specialize (Hm s).
  destruct (m s) as [[a | e |] s1]; cbn in *; try discriminate.
  - apply Hh.
  - exact Hm.
Qed.

Lemma completes_prop {S} v k : completes (@prop S v k).
Proof. unfold prop. destruct (get v k); [apply completes_ret | apply completes_throw]. Qed.

Lemma completes_handleApiError_m {S} v : completes (@handleApiError_m S v).
Proof.
  unfold handleApiError_m.
  destruct (handleApiError v); [apply completes_ret | apply completes_throw].
Qed.

Lemma completes_liftW {A} (m : M World A) : completes m -> completes (liftW m).
Proof.
  intros Hm s. unfold liftW. specialize (Hm (world s)).
  destruct (m (world s)) as [o w']. exact Hm.
Qed.

Lemma keeps_liftW {A X} (f : World -> X) (m : M World A) :
  keeps f m -> keeps (fun s => f (world s)) (liftW m).
Proof.
  intros Hm s. unfold liftW. specialize (Hm (world s)).
  destruct (m (world s)) as [o w']. exact Hm.
Qed.

(** What a lifted API computation leaves alone. *)
Lemma keeps_liftW_app {A X} (f : Sys -> X) (m : M World A) :
  (forall w s, f (set_world w s) = f s) -> keeps f (liftW m).
Proof.
  intros Hf s. unfold liftW. destruct (m (world s)) as [o w']. apply Hf.
Qed.

Lemma completes_unwrap (r : Response) (fallback : string) :
  completes (unwrap r fallback).
Proof.
  unfold unwrap. apply completes_bind; [apply completes_prop |]. intros success.
  apply completes_bind.
  - destruct (truthy success); [apply completes_prop | apply completes_ret].
  - intros payload. destruct (truthy payload); [apply completes_ret |].
    apply completes_bind; [apply completes_prop |]. intros err. apply completes_throw.
Qed.

Lemma keeps_unwrap {X} (f : World -> X) (r : Response) (fallback : string) :
  keeps f (unwrap r fallback).
Proof.
  unfold unwrap. apply keeps_bind; [apply keeps_prop |]. intros success.
  apply keeps_bind.
  - destruct (truthy success); [apply keeps_prop | apply keeps_ret].
  - intros payload. destruct (truthy payload); [apply keeps_ret |].
    apply keeps_bind; [apply keeps_prop |]. intros err. apply keeps_throw.
Qed.

(** A payload that passed the envelope check is truthy. *)
Lemma unwrap_Ret (r : Response) (fallback : string) (w w' : World) (payload : JsValue) :
  unwrap r fallback w = (Ret payload, w') -> truthy payload = true.
Proof.
  unfold unwrap. intros H.
  apply bind_Ret_inv in H. destruct H as (success & w1 & _ & H).
  apply bind_Ret_inv in H. destruct H as (p & w2 & _ & H).
  destruct (truthy p) eqn:Hp.
  - inversion H; subst. exact Hp.
  - apply bind_Ret_inv in H. destruct H as (err & w3 & _ & H). discriminate H.
Qed.

Section Resync.

Variable env : Env.









Lemma getCreditBalance_Ret (fuel : nat) (w w' : World) (payload : JsValue) :
  getCreditBalance env fuel w = (Ret payload, w') -> truthy payload = true.
Proof.
  unfold getCreditBalance. intros H.
  apply bind_Ret_inv in H. destruct H as ([] & w1 & _ & H).
  apply bind_Ret_inv in H. destruct H as (response & w2 & _ & H).
  apply (unwrap_Ret _ _ _ _ _ H).
Qed.


End Resync.

Section TransformAttempt.

Variable env : Env.

Lemma handleApiError_thrown (e : Thrown) :
  exists message, handleApiError (thrown_js e) = Some message.
Proof.
  rewrite handleApiError_not_nullish by (destruct e; reflexivity).
  destruct (truthy (server_error (thrown_js e))).
  - destruct (known_code_message _); eexists; reflexivity.
  - destruct (truthy (get_opt (thrown_js e) "message")); eexists; reflexivity.
Qed.

Lemma get_of_truthy_value (v : JsValue) (k : string) :
  truthy v = true -> get v k = Some (get_opt v k).
Proof.
  unfold get_opt. destruct v; cbn; try discriminate; reflexivity.
Qed.

(** [refreshBalance], step by step: [SET_LOADING], the fetch, and
    [SET_BALANCE] with the server's values or [SET_ERROR] with the message
    of the failure.  It never throws. *)
Lemma refreshBalance_run (fuel : nat) (s : Sys) :
  refreshBalance env fuel s =
    let loading := creditReducer (creditState s) (SET_LOADING true) in
    match getCreditBalance env fuel (world s) with
    | (Ret payload, w') =>
        (Ret tt,
         mkSys w'
           (creditReducer loading
              (SET_BALANCE (get_opt payload "photoCredits")
                 (get_opt payload "subscriptionTier")))
           (authState s) (transformState s))
    | (Throw e, w') =>
        (Ret tt,
         mkSys w'
           (creditReducer loading
              (SET_ERROR match handleApiError (thrown_js e) with
                         | Some message => message
                         | None => JUndefined
                         end))
           (authState s) (transformState s))
    | (OutOfFuel, w') => (OutOfFuel, mkSys w' loading (authState s) (transformState s))
    end.
Proof.
  unfold refreshBalance, try_catch, bind, dispatchCredit, modify, liftW.
  cbn [world set_creditState creditState].
  destruct (getCreditBalance env fuel (world s)) as [[payload | e |] w'] eqn:Hg.
  - pose proof (getCreditBalance_Ret env fuel _ _ _ Hg) as Ht.
    unfold prop. rewrite !(get_of_truthy_value payload _ Ht). reflexivity.
  - destruct (handleApiError_thrown e) as [message Hm].
    unfold handleApiError_m. rewrite Hm. reflexivity.
  - reflexivity.
Qed.

(** [transformPhoto] past its two guards: the optimistic decrement, the
    API call, and one [refreshBalance] whether the call returned or
    threw. *)
Lemma transformPhoto_run (fuel : nat) backgroundType customPrompt (s : Sys)
  (image : string) :
  currentImage (transformState s) = Some image ->
  image <> "" ->
  checkCredits s = true ->
  transformPhoto env fuel backgroundType customPrompt s =
    let credit1 := creditReducer (creditState s) CONSUME_CREDIT in
    let t := transformState s in
    match api_transformPhoto env fuel image backgroundType customPrompt (world s) with
    | (Ret res, w1) =>
        bind (refreshBalance env fuel)
          (fun _ => ret (mkTransformOutcome true res JUndefined))
          (mkSys w1 credit1 (authState s)
             (mkTransformState false (Some image) res JNull None))
    | (Throw e, w1) =>
        let message := match handleApiError (thrown_js e) with
                       | Some message => message
                       | None => JUndefined
                       end in
        bind (refreshBalance env fuel)
          (fun _ => ret (mkTransformOutcome false JUndefined message))
          (mkSys w1 credit1 (authState s)
             (mkTransformState false (Some image) (result t) message None))
    | (OutOfFuel, w1) =>
        (OutOfFuel,
         mkSys w1 credit1 (authState s)
           (mkTransformState true (Some image) (result t) JNull
              (Some "AI is working its magic...")))
    end.
Proof.
  intros Himg Hne Hcred.
  unfold transformPhoto, try_catch, gets.
  unfold bind at 1. rewrite Himg, (truthy_token_Some image Hne).
  unfold bind at 1. rewrite Hcred.
  unfold bind at 1 2 3 4, setState, consumeCredit, dispatchCredit, modify, liftW.
  cbn [world set_transformState set_creditState creditState transformState
       authState currentImage result isTransforming error progress].
  rewrite Himg.
  destruct (api_transformPhoto env fuel image backgroundType customPrompt (world s))
    as [[res | e |] w1] eqn:Hapi.
  - unfold bind.
    match goal with
    | |- context [refreshBalance env fuel ?X] => set (s1 := X)
    end.
    match goal with
    | |- _ = (let (_, _) := refreshBalance env fuel ?Y in _) => change Y with s1
    end.
    destruct (refreshBalance env fuel s1) as [[[] | e |] s2] eqn:Hr;
      try reflexivity.
    rewrite refreshBalance_run in Hr. cbv zeta in Hr.
    destruct (getCreditBalance env fuel (world s1)) as [[payload | e' |] w2];
      discriminate Hr.
  - destruct (handleApiError_thrown e) as [message Hm].
    unfold handleApiError_m. rewrite Hm. cbv zeta.
    unfold bind at 1. unfold ret at 1.
    cbn [set_world world creditState authState transformState currentImage
         result isTransforming error progress set_transformState].
    reflexivity.
  - reflexivity.
Qed.

End TransformAttempt.

Section AttemptSettles.

Variable env : Env.

Hypothesis no_401 : never_401 env.

Lemma completes_request (fuel : nat) (config : Request) :
  completes (request env (S fuel) config).
Proof.
  intros w. rewrite request_S.
  rewrite (bind_Ret _ _ _ _ _ (on_request_run env config w)).
  unfold try_catch, send.
  destruct (server env (sent (tick_storage w)) _) as [r | message] eqn:Hs;
    cbn [settle].
  - destruct (validateStatus (status r)); [discriminate |].
    unfold on_rejected. cbn [error_config error_status is_int int].
    apply no_401 in Hs. apply Z.eqb_neq in Hs. rewrite Hs. discriminate.
  - discriminate.
Qed.




End AttemptSettles.





(** ** The cycle as the application runs it *)

(** [consumeCredit] is the event [Decrement] ... *)
Lemma consumeCredit_is_a_decrement (s : Sys) :
  creditState (snd (consumeCredit s))
  = dispatch_all (creditState s) (event_actions Decrement).
Proof. reflexivity. Qed.

(** ... and a [refreshBalance] that ends is one of the two resync events,
    carrying what the balance fetch returned or the message of its
    failure. *)
Lemma refreshBalance_is_a_resync env (fuel : nat) (s : Sys) :
  fst (refreshBalance env fuel s) <> OutOfFuel ->
  exists e : CreditEvent,
    creditState (snd (refreshBalance env fuel s))
    = dispatch_all (creditState s) (event_actions e)
    /\ match e with
       | Decrement => False
       | ResyncOk credits tier =>
           exists payload,
             fst (getCreditBalance env fuel (world s)) = Ret payload
             /\ credits = get_opt payload "photoCredits"
             /\ tier = get_opt payload "subscriptionTier"
       | ResyncFailed message =>
           exists e', fst (getCreditBalance env fuel (world s)) = Throw e'
                      /\ handleApiError (thrown_js e') = Some message
       end.
Proof.
  rewrite refreshBalance_run. cbv zeta.
  destruct (getCreditBalance env fuel (world s)) as [[payload | e' |] w'];
    cbn [fst snd]; intros H.
  - exists (ResyncOk (get_opt payload "photoCredits")
                     (get_opt payload "subscriptionTier")).
    split; [reflexivity |]. exists payload. repeat split.
  - destruct (handleApiError_thrown e') as [message Hm]. rewrite Hm.
    exists (ResyncFailed message). split; [reflexivity |].
    exists e'. split; [reflexivity | exact Hm].
  - contradiction.
Qed.

(** ** Sample runs *)

Example string_to_number_padded : string_to_number " 42 " = JInt 42.
Proof. reflexivity. Qed.

(** Other spellings of an integer convert to it, and pass the guard
    [photoCredits >= 1] when it is at least 1. *)
Example string_to_number_spellings :
  string_to_number "2.0" = JInt 2
  /\ string_to_number "1e3" = JInt 1000
  /\ string_to_number "0x10" = JInt 16
  /\ string_to_number "0b11" = JInt 3
  /\ string_to_number "-100e-2" = JInt (-1)
  /\ string_to_number "+0x10" = JNaN
  /\ string_to_number "1e" = JNaN
  /\ at_least_one (JStr "2.0") = true
  /\ at_least_one (JStr "0.0") = false.
Proof. repeat split; reflexivity. Qed.

Example add_number_and_string : add (int 3) (JStr "1") = JStr "31".
Proof. reflexivity. Qed.

(** One credit, one successful transform: the balance drops to 0 at once,
    and the resync confirms 0. *)
Example last_credit_spent :
  let env := mkEnv (backend "tok-1" 0 (NoAnswer "Network Error")) reliable_storage in
  let run := transformPhoto env 1 cartoon None
               (app (fresh_world (Some "tok-1")) 1 (Some picked_image)) in
  fst run = Ret (mkTransformOutcome true transform_payload JUndefined)
  /\ photoCredits (creditState (snd run)) = int 0
  /\ CreditContext.error (creditState (snd run)) = JNull.
Proof. cbv zeta. repeat split; vm_compute; reflexivity. Qed.

(** A refresh that is answered 401 once and 500 afterwards does end: the
    token is cleared and the caller gets the 500. *)
Example refresh_rejected_then_failing :
  let env :=
    mkEnv (fun log _ => match log with
                        | [] => Answer unauthorized
                        | _ => Answer (envelope_error 500 "Internal error" "SERVER_ERROR")
                        end) reliable_storage in
  let run := refreshToken env 2 (fresh_world (Some "tok-1")) in
  fst run = Throw (AxiosError "Request failed with status code 500"
                     (Some (with_authorization refresh_request "Bearer tok-1"))
                     (Some (envelope_error 500 "Internal error" "SERVER_ERROR")))
  /\ store (snd run) = None
  /\ times_called "refreshToken" (snd run) = 2%nat.
Proof. cbv zeta. repeat split; vm_compute; reflexivity. Qed.

(** * Further properties *)

(** ** Requests that are not answered 401 *)

Lemma never_401_not_401 env log (r : Request) :
  never_401 env -> not_401 (server env log r).
Proof.
  intros H. destruct (server env log r) as [resp | message] eqn:Hs; cbn.
  - apply (H _ _ _ Hs).
  - exact I.
Qed.

Lemma request_other_answer env (fuel : nat) (config : Request) (w : World) :
  not_401
    (server env (sent w)
       (authorized (if storage_fails env (storage_ops w) then None else store w)
          config)) ->
  request env (S fuel) config w =
    (settle (authorized (if storage_fails env (storage_ops w) then None else store w)
               config)
       (server env (sent w)
          (authorized (if storage_fails env (storage_ops w) then None else store w)
             config)),
     log_sent (authorized (if storage_fails env (storage_ops w) then None else store w)
                 config)
       (tick_storage w)).
Proof.
  intros Hno.
  rewrite request_S.
  rewrite (bind_Ret _ _ _ _ _ (on_request_run env config w)).
  unfold try_catch, send. cbn [sent tick_storage].
  destruct (server env (sent w) _) as [r | message]; cbn [settle].
  - destruct (validateStatus (status r)); [reflexivity |].
    unfold on_rejected. cbn [error_config error_status is_int int].
    cbn in Hno. apply Z.eqb_neq in Hno. rewrite Hno. reflexivity.
  - reflexivity.
Qed.

Lemma request_never_401 env (fuel : nat) (config : Request) (w : World) :
  never_401 env ->
  request env (S fuel) config w =
    (settle (authorized (if storage_fails env (storage_ops w) then None else store w)
               config)
       (server env (sent w)
          (authorized (if storage_fails env (storage_ops w) then None else store w)
             config)),
     log_sent (authorized (if storage_fails env (storage_ops w) then None else store w)
                 config)
       (tick_storage w)).
Proof.
  intros Hno. apply request_other_answer. apply never_401_not_401. exact Hno.
Qed.

(** The interceptors let every answer but a 401 through: the request is
    sent once, under the bearer token the secure store yields (none when
    the store is empty, holds the empty string, or cannot be read), the
    promise settles on that answer, the stored token is left alone and no
    refresh is started. *)
Theorem request_passes_other_answers :
  forall env fuel (config : Request) (w : World),
    let config' :=
      authorized (if storage_fails env (storage_ops w) then None else store w)
        config in
    not_401 (server env (sent w) config') ->
    exists w',
      request env (S fuel) config w
      = (settle config' (server env (sent w) config'), w')
      /\ sent w' = config' :: sent w
      /\ store w' = store w
      /\ calls w' = calls w.
Proof.
  intros env fuel config w config' Hno.
  exists (log_sent config' (tick_storage w)). split; [| repeat split].
  apply request_other_answer. exact Hno.
Qed.

Lemma request_passes_other_answers_witness :
  exists w',
    request env_offline 1 credits_request (fresh_world (Some "tok-1"))
    = (Throw (AxiosError "Network Error"
                (Some (with_authorization credits_request "Bearer tok-1")) None),
       w')
    /\ sent w' = [with_authorization credits_request "Bearer tok-1"]
    /\ store w' = Some "tok-1"
    /\ calls w' = [].
Proof.
  apply (request_passes_other_answers env_offline 0 credits_request
           (fresh_world (Some "tok-1"))).
  exact I.
Defined.

(** ** A refresh that leaves no usable token *)

(** When a request is answered 401 and the refresh succeeds, but the token
    read back from the secure store is missing, empty or unreadable, the
    interceptor rejects with the 401 of the original request: nothing is
    resent and the store is not cleared. *)
Theorem refresh_without_usable_token :
  forall env fuel (config config' : Request) (w w1 w2 : World)
         (r : Response) (payload : JsValue),
    on_request env config w = (Ret config', w1) ->
    server env (sent w1) config' = Answer r ->
    status r = 401 ->
    refreshToken env fuel (log_sent config' w1) = (Ret payload, w2) ->
    truthy_token (if storage_fails env (storage_ops w2) then None else store w2)
    = false ->
    request env (S fuel) config w
    = (Throw (AxiosError "Request failed with status code 401"
                (Some config') (Some r)),
       tick_storage w2).
Proof.
  intros env fuel config config' w w1 w2 r payload Hreq Hserver H401 Hrefresh Htoken.
  rewrite request_S. rewrite (bind_Ret _ _ _ _ _ Hreq).
  rewrite (try_catch_Throw _ _ _ _ _ (send_401 env config' w1 r Hserver H401)).
  unfold on_rejected. cbn [error_config error_status].
  rewrite H401. cbn [is_int int Z.eqb Pos.eqb].
  unfold refreshToken in Hrefresh.
  erewrite bind_Ret with (a := Reject) (s1 := tick_storage w2); [reflexivity |].
  erewrite try_catch_Ret; [reflexivity |].
  erewrite bind_Ret; [| exact Hrefresh].
  erewrite bind_Ret; [| apply getStoredSessionToken_run].
  destruct (if storage_fails env (storage_ops w2) then None else store w2) as [t |].
  - rewrite Htoken. reflexivity.
  - reflexivity.
Qed.

Lemma refresh_without_usable_token_witness :
  request env_empty_token 2 credits_request (fresh_world (Some "tok-1"))
  = (Throw (AxiosError "Request failed with status code 401"
              (Some (with_authorization credits_request "Bearer tok-1"))
              (Some unauthorized)),
     mkWorld (Some "")
       [with_authorization refresh_request "Bearer tok-1";
        with_authorization credits_request "Bearer tok-1"]
       4 ["refreshToken"]).
Proof.
  apply (refresh_without_usable_token env_empty_token 1 credits_request
           (with_authorization credits_request "Bearer tok-1")
           (fresh_world (Some "tok-1"))
           (tick_storage (fresh_world (Some "tok-1")))
           (mkWorld (Some "")
              [with_authorization refresh_request "Bearer tok-1";
               with_authorization credits_request "Bearer tok-1"]
              3 ["refreshToken"])
           unauthorized (auth_payload ""));
    reflexivity.
Defined.

(** ** The envelope check and the message shown *)

Lemma handleApiError_Error (m : string) :
  m <> "" -> handleApiError (thrown_js (Error m)) = Some (JStr m).
Proof.
  intros Hne. cbn. destruct (String.eqb_spec m ""); [contradiction | reflexivity].
Qed.

(** The envelope check of the facade operations on a response whose body
    is not [null]: the payload is returned exactly when [success] and
    [data] are both truthy; otherwise the operation throws an [Error] whose
    message is the envelope's error message, or the operation's fallback
    when there is none, and that message is what [handleApiError] shows for
    it, whatever error code the envelope carries. *)
Theorem unwrap_outcome :
  forall (r : Response) (fallback : string) (w : World),
    nullish (data r) = false ->
    fallback <> "" ->
    string_or_falsy (get_opt (get_opt (data r) "error") "message") = true ->
    if truthy (get_opt (data r) "success") && truthy (get_opt (data r) "data")
    then unwrap r fallback w = (Ret (get_opt (data r) "data"), w)
    else exists m,
        unwrap r fallback w = (Throw (Error m), w)
        /\ JStr m = or_else (get_opt (get_opt (data r) "error") "message")
                      (JStr fallback)
        /\ handleApiError (thrown_js (Error m)) = Some (JStr m).
Proof.
  intros r fallback w Hbody Hfb Hmsg.
  assert (Hget : forall k, get (data r) k = Some (get_opt (data r) k)).
  { intros k. unfold get_opt. destruct (data r); try discriminate Hbody; reflexivity. }
  assert (Hfail :
    exists m,
      (Throw (Error (to_string (or_else (get_opt (get_opt (data r) "error") "message")
                                  (JStr fallback)))), w)
      = (@Throw JsValue (Error m), w)
      /\ JStr m = or_else (get_opt (get_opt (data r) "error") "message") (JStr fallback)
      /\ handleApiError (thrown_js (Error m)) = Some (JStr m)).
  { unfold or_else.
    destruct (truthy (get_opt (get_opt (data r) "error") "message")) eqn:Ht.
    - destruct (string_or_falsy_truthy _ Hmsg Ht) as (m & Hm & Hne).
      exists m. rewrite Hm. repeat split. apply handleApiError_Error. exact Hne.
    - exists fallback. repeat split. apply handleApiError_Error. exact Hfb. }
  unfold unwrap, prop, bind. rewrite !Hget. cbn [ret].
  destruct (truthy (get_opt (data r) "success")) eqn:Hs; cbn [andb].
  - unfold ret at 1 3.
    destruct (truthy (get_opt (data r) "data")) eqn:Hd.
    + reflexivity.
    + exact Hfail.
  - unfold ret at 1. rewrite Hs. exact Hfail.
Qed.

Lemma unwrap_outcome_witness :
  exists m,
    unwrap (mkResponse 200
              (JObj [("success", JBool false);
                     ("error", JObj [("message", JStr "Not enough credits");
                                     ("code", JStr "INSUFFICIENT_CREDITS")])]))
      "Photo transformation failed" (fresh_world None)
    = (Throw (Error m), fresh_world None)
    /\ JStr m = JStr "Not enough credits"
    /\ handleApiError (thrown_js (Error m)) = Some (JStr m).
Proof.
  apply (unwrap_outcome
           (mkResponse 200
              (JObj [("success", JBool false);
                     ("error", JObj [("message", JStr "Not enough credits");
                                     ("code", JStr "INSUFFICIENT_CREDITS")])]))
           "Photo transformation failed" (fresh_world None));
    [reflexivity | discriminate | reflexivity].
Defined.

(** ** Sign-in and refresh on a backend that never answers 401 *)

Section NoUnauthorized.

Variable env : Env.

Hypothesis no_401 : never_401 env.

Lemma storeSessionToken_Throw (token : JsValue) (w w' : World) (e : Thrown) :
  storeSessionToken env token w = (Throw e, w') ->
  store w' = store w /\ sent w' = sent w.
Proof.
  unfold storeSessionToken, try_catch, setItemAsync, throw.
  destruct token;
    try (intros H; inversion H; subst; split; reflexivity).
  destruct (storage_fails env (storage_ops w)); intros H; inversion H; subst.
  split; reflexivity.
Qed.

(** The tail shared by [signInWithApple] and [refreshToken], when it
    throws: nothing was stored. *)
Lemma store_then_return_Throw (r : Response) (fallback : string)
  (w w' : World) (e : Thrown) :
  bind (unwrap r fallback) (fun p =>
    bind (prop p "sessionToken") (fun token =>
      bind (storeSessionToken env token) (fun _ => ret p))) w = (Throw e, w') ->
  store w' = store w /\ sent w' = sent w.
Proof.
  unfold bind at 1.
  pose proof (keeps_unwrap store r fallback w) as Hstore.
  pose proof (keeps_unwrap sent r fallback w) as Hsent.
  destruct (unwrap r fallback w) as [[p | e0 |] w1]; cbn [snd] in *.
  - unfold bind at 1, prop.
    destruct (get p "sessionToken") as [token |]; cbn [ret throw].
    + unfold bind.
      destruct (storeSessionToken env token w1) as [[[] | e1 |] w2] eqn:Hst;
        intros H; inversion H; subst.
      apply storeSessionToken_Throw in Hst. destruct Hst as [H1 H2].
      split; congruence.
    + intros H; inversion H; subst. split; assumption.
  - intros H; inversion H; subst. split; assumption.
  - discriminate.
Qed.

(** A sign-in that fails persists nothing: when [signInWithApple] throws,
    the secure store holds what it held before, and one request went out
    (none when the failure precedes it). *)
Theorem failed_signIn_persists_nothing :
  forall fuel (credential : JsValue) (w w' : World) (e : Thrown),
    signInWithApple env fuel credential w = (Throw e, w') ->
    store w' = store w
    /\ sent w' =
         authorized (if storage_fails env (storage_ops w) then None else store w)
           (post API_ENDPOINTS.auth_apple credential) :: sent w.
Proof.
  intros fuel credential w w' e. unfold signInWithApple.
  rewrite (bind_Ret (modify (log_call "signInWithApple")) _ w tt
             (log_call "signInWithApple" w) eq_refl).
  destruct fuel as [| f].
  - cbn. discriminate.
  - unfold bind at 1. rewrite (request_never_401 env f _ _ no_401).
    cbn [storage_ops store sent log_call].
    destruct (settle _ _) as [r | e0 |].
    + intros H. apply store_then_return_Throw in H. exact H.
    + intros H. inversion H; subst. split; reflexivity.
    + discriminate.
Qed.

Lemma completes_refreshToken (fuel : nat) : completes (refreshToken env (S fuel)).
Proof.
  unfold refreshToken, refreshToken_via.
  apply completes_bind; [apply completes_modify |]. intros _.
  apply completes_bind; [apply completes_request; exact no_401 |]. intros response.
  apply completes_bind; [apply completes_unwrap |]. intros payload.
  apply completes_bind; [apply completes_prop |]. intros token.
  apply completes_bind.
  - intros w. unfold storeSessionToken, try_catch, setItemAsync, throw.
    destruct token; try discriminate.
    destruct (storage_fails env (storage_ops w)); discriminate.
  - intros _. apply completes_ret.
Qed.

Lemma refreshToken_Throw (fuel : nat) (w w' : World) (e : Thrown) :
  refreshToken env fuel w = (Throw e, w') -> store w' = store w.
Proof.
  unfold refreshToken, refreshToken_via.
  rewrite (bind_Ret (modify (log_call "refreshToken")) _ w tt
             (log_call "refreshToken" w) eq_refl).
  destruct fuel as [| f].
  - cbn. discriminate.
  - unfold bind at 1. rewrite (request_never_401 env f _ _ no_401).
    destruct (settle _ _) as [r | e0 |].
    + intros H. apply store_then_return_Throw in H. apply H.
    + intros H. inversion H; subst. reflexivity.
    + discriminate.
Qed.

End NoUnauthorized.

Lemma failed_signIn_persists_nothing_witness :
  store (snd (signInWithApple env_offline 1
                (JObj [("identityToken", JStr "")]) (fresh_world None))) = None.
Proof.
  apply (failed_signIn_persists_nothing env_offline
           ltac:(intros log r resp H; discriminate H)
           1 (JObj [("identityToken", JStr "")]) (fresh_world None)
           (snd (signInWithApple env_offline 1
                   (JObj [("identityToken", JStr "")]) (fresh_world None)))
           (AxiosError "Network Error"
              (Some (post API_ENDPOINTS.auth_apple (JObj [("identityToken", JStr "")])))
              None)).
  reflexivity.
Defined.

(** [refreshToken] of the auth provider, on a backend that never answers
    401: it always ends normally.  Either the refresh returned, and the
    auth state carries the returned user and token, the token being the one
    now stored; or it threw, the auth state is [SignedOut], and the secure
    store still holds what it held before. *)
Theorem AuthProvider_refreshToken_outcome :
  forall env fuel (s : Sys),
    never_401 env ->
    exists s',
      AuthProvider_refreshToken env (S fuel) s = (Ret tt, s')
      /\ ((exists payload token,
             refreshToken env (S fuel) (world s) = (Ret payload, world s')
             /\ AuthContext.user (authState s') = get_opt payload "user"
             /\ AuthContext.sessionToken (authState s') = JStr token
             /\ store (world s') = Some token)
          \/ (exists e,
                refreshToken env (S fuel) (world s) = (Throw e, world s')
                /\ AuthContext.SignedOut (authState s')
                /\ store (world s') = store (world s))).
Proof.
  intros env fuel s Hno.
  unfold AuthProvider_refreshToken, try_catch, liftW.
  unfold bind at 1.
  pose proof (completes_refreshToken env Hno fuel (world s)) as Hc.
  destruct (refreshToken env (S fuel) (world s)) as [[payload | e |] w'] eqn:Hr;
    cbn [fst] in Hc.
  - assert (Htok : exists token,
              get payload "sessionToken" = Some (JStr token) /\ store w' = Some token).
    { unfold refreshToken, refreshToken_via in Hr.
      apply bind_Ret_inv in Hr. destruct Hr as ([] & w1 & _ & Hr).
      apply bind_Ret_inv in Hr. destruct Hr as (response & w2 & _ & Hr).
      apply (store_then_return env _ _ _ _ Hr). }
    destruct Htok as (token & Hget & Hstore).
    assert (Huser : get payload "user" = Some (get_opt payload "user")).
    { unfold get_opt. destruct payload; try discriminate Hget; reflexivity. }
    unfold bind, prop. rewrite Huser, Hget. cbn.
    eexists. split; [reflexivity |]. left. exists payload, token.
    repeat split. exact Hstore.
  - cbn. eexists. split; [reflexivity |]. right. exists e.
    split; [reflexivity |]. split; [repeat split |].
    cbn. apply (refreshToken_Throw env Hno _ _ _ _ Hr).
  - exfalso. apply Hc. reflexivity.
Qed.

Lemma AuthProvider_refreshToken_outcome_witness :
  exists s',
    AuthProvider_refreshToken env_offline 1 (app (fresh_world (Some "tok-1")) 3 None)
    = (Ret tt, s')
    /\ AuthContext.SignedOut (authState s')
    /\ store (world s') = Some "tok-1".
Proof.
  destruct (AuthProvider_refreshToken_outcome env_offline 0
              (app (fresh_world (Some "tok-1")) 3 None)
              ltac:(intros log r resp H; discriminate H))
    as (s' & Hrun & [(payload & token & Hr & _) | (e & Hr & Hout & Hstore)]).
  - vm_compute in Hr. discriminate Hr.
  - exists s'. split; [exact Hrun | split; [exact Hout | exact Hstore]].
Defined.

(** ** Reducers *)

(** [n] optimistic decrements in a row take a balance [z >= 0] to
    [max(0, z - n)]: the balance stops at 0, and nothing else in the credit
    state changes. *)
Theorem consume_credit_n_times :
  forall (n : nat) (s : CreditState) (z : Z),
    photoCredits s = int z ->
    0 <= z ->
    dispatch_all s (repeat CONSUME_CREDIT n)
    = mkCreditState (int (Z.max 0 (z - Z.of_nat n))) (subscriptionTier s)
        (availablePackages s) (purchaseHistory s) (isLoading s)
        (CreditContext.error s).
Proof.
  induction n as [| n IH]; intros s z Hz Hpos.
  - cbn [repeat dispatch_all fold_left]. destruct s; cbn in Hz |- *. subst.
    rewrite Z.sub_0_r. rewrite (Z.max_r 0 z Hpos). reflexivity.
  - cbn [repeat]. unfold dispatch_all in *. cbn [fold_left].
    rewrite (IH (creditReducer s CONSUME_CREDIT) (Z.max 0 (z - 1))).
    + cbn [creditReducer subscriptionTier availablePackages purchaseHistory
           isLoading CreditContext.error].
      f_equal. f_equal. lia.
    + apply consume_credit_value. exact Hz.
    + lia.
Qed.

Lemma consume_credit_n_times_witness :
  dispatch_all (mkCreditState (int 2) (JStr "none") [] [] false JNull)
    (repeat CONSUME_CREDIT 5)
  = mkCreditState (int 0) (JStr "none") [] [] false JNull.
Proof.
  apply (consume_credit_n_times 5
           (mkCreditState (int 2) (JStr "none") [] [] false JNull) 2).
  - reflexivity.
  - lia.
Defined.

(** In the auth container a recorded error means signed out: from the
    initial state, after any sequence of actions, a state whose [error] is
    not [null] has neither a user nor a session token. *)
Theorem auth_error_means_signed_out :
  forall (actions : list AuthContext.AuthAction),
    let s := auth_after AuthContext.initialState actions in
    AuthContext.error s <> JNull ->
    AuthContext.user s = JNull /\ AuthContext.sessionToken s = JNull.
Proof.
  assert (Hstep : forall s a,
    (AuthContext.error s <> JNull ->
     AuthContext.user s = JNull /\ AuthContext.sessionToken s = JNull) ->
    AuthContext.error (AuthContext.authReducer s a) <> JNull ->
    AuthContext.user (AuthContext.authReducer s a) = JNull
    /\ AuthContext.sessionToken (AuthContext.authReducer s a) = JNull).
  { intros s a Hs. destruct a; cbn; intros He;
      try (exfalso; apply He; reflexivity);
      try (split; reflexivity); apply Hs; exact He. }
  assert (Hall : forall actions s,
    (AuthContext.error s <> JNull ->
     AuthContext.user s = JNull /\ AuthContext.sessionToken s = JNull) ->
    AuthContext.error (auth_after s actions) <> JNull ->
    AuthContext.user (auth_after s actions) = JNull
    /\ AuthContext.sessionToken (auth_after s actions) = JNull).
  { induction actions as [| a actions IH]; intros s Hs; cbn.
    - exact Hs.
    - apply IH. apply Hstep. exact Hs. }
  intros actions s. apply Hall. intros _. split; reflexivity.
Qed.

Lemma auth_error_means_signed_out_witness :
  AuthContext.user
    (auth_after AuthContext.initialState
       [AuthContext.SIGN_IN_SUCCESS (JObj []) (JStr "tok-1");
        AuthContext.SIGN_IN_START;
        AuthContext.SIGN_IN_ERROR (JStr "Network Error");
        AuthContext.SET_LOADING true])
  = JNull.
Proof.
  apply (auth_error_means_signed_out
           [AuthContext.SIGN_IN_SUCCESS (JObj []) (JStr "tok-1");
            AuthContext.SIGN_IN_START;
            AuthContext.SIGN_IN_ERROR (JStr "Network Error");
            AuthContext.SET_LOADING true]).
  cbn. discriminate.
Defined.

(** ** Start-up and sign-in of the auth provider *)

Lemma validateToken_Ret env (fuel : nat) (w w' : World) (payload : JsValue) :
  validateToken env fuel w = (Ret payload, w') -> truthy payload = true.
Proof.
  unfold validateToken. intros H.
  apply bind_Ret_inv in H. destruct H as ([] & w1 & _ & H).
  apply bind_Ret_inv in H. destruct H as (response & w2 & _ & H).
  apply (unwrap_Ret _ _ _ _ _ H).
Qed.

(** When the start-up sequence of the auth provider ends, it has ended
    normally and the loading flag is off.  [isAvailable] is what the
    platform reported, or [false] when asking failed.  The stored session is
    restored exactly when [validateToken] returned a validation whose
    [valid] and [user] are both truthy: the user of the auth state is then
    that [user], with the empty string as session token and no error.  In
    every other case ([validateToken] threw, or the validation has no truthy
    [valid] and [user]) the user, token and error fields are as they
    were. *)
Theorem initializeAuth_ends_loading :
  forall env fuel (available : Thrown + bool) (s s' : Sys) (o : Outcome unit),
    initializeAuth env fuel available s = (o, s') ->
    o <> OutOfFuel ->
    o = Ret tt
    /\ AuthContext.isLoading (authState s') = false
    /\ AuthContext.isAvailable (authState s')
       = match available with inr b => b | inl _ => false end
    /\ match validateToken env fuel (world s) with
       | (Ret validation, w1) =>
           world s' = w1
           /\ if truthy (get_opt validation "valid")
                 && truthy (get_opt validation "user")
              then AuthContext.user (authState s') = get_opt validation "user"
                   /\ AuthContext.sessionToken (authState s') = JStr ""
                   /\ AuthContext.error (authState s') = JNull
              else AuthContext.user (authState s') = AuthContext.user (authState s)
                   /\ AuthContext.sessionToken (authState s')
                      = AuthContext.sessionToken (authState s)
                   /\ AuthContext.error (authState s')
                      = AuthContext.error (authState s)
       | (Throw _, w1) =>
           world s' = w1
           /\ AuthContext.user (authState s') = AuthContext.user (authState s)
           /\ AuthContext.sessionToken (authState s')
              = AuthContext.sessionToken (authState s)
           /\ AuthContext.error (authState s') = AuthContext.error (authState s)
       | (OutOfFuel, _) => False
       end.
Proof.
  intros env fuel available s s' o.
  unfold initializeAuth.
  set (b := match available with inr b => b | inl _ => false end).
  assert (Hfirst :
    checkAppleSignInAvailability available s
    = (Ret tt,
       set_authState
         (AuthContext.authReducer (authState s) (AuthContext.SET_AVAILABILITY b)) s)).
  { unfold b. destruct available as [e | x]; reflexivity. }
  rewrite (bind_Ret _ _ _ _ _ Hfirst).
  unfold checkStoredAuth, try_catch, liftW. unfold bind at 1.
  cbn [world set_authState].
  destruct (validateToken env fuel (world s)) as [[validation | e |] w'] eqn:Hv.
  - pose proof (validateToken_Ret env fuel _ _ _ Hv) as Ht.
    unfold bind at 1, prop. rewrite (get_of_truthy_value validation "valid" Ht).
    cbn [ret]. unfold bind at 1.
    destruct (truthy (get_opt validation "valid")) eqn:Hvalid.
    + unfold prop. rewrite (get_of_truthy_value validation "user" Ht). cbn [ret].
      destruct (truthy (get_opt validation "user")) eqn:Huser;
        cbn; intros H Ho; inversion H; subst; cbn; repeat split.
    + cbn [ret]. rewrite Hvalid. cbn. intros H Ho; inversion H; subst; cbn.
      repeat split.
  - cbn. intros H Ho; inversion H; subst; cbn. repeat split.
  - intros H Ho. inversion H; subst. contradiction.
Qed.

Lemma initializeAuth_ends_loading_witness :
  let start := mkSys (fresh_world (Some "tok-2")) CreditContext.initialState
                 AuthContext.initialState PhotoTransform.initialState in
  let restored := snd (initializeAuth env_validating 1 (inr true) start) in
  let offline := snd (initializeAuth env_offline 1 (inr true) start) in
  AuthContext.isLoading (authState restored) = false
  /\ AuthContext.user (authState restored) = JObj [("publicId", JStr "u-1")]
  /\ AuthContext.sessionToken (authState restored) = JStr ""
  /\ AuthContext.isLoading (authState offline) = false
  /\ AuthContext.user (authState offline) = JNull.
Proof.
  intros start restored offline.
  destruct (initializeAuth_ends_loading env_validating 1 (inr true) start
              restored (Ret tt) eq_refl ltac:(discriminate))
    as (_ & Hloading & _ & Hrestored).
  destruct (initializeAuth_ends_loading env_offline 1 (inr true) start
              offline (Ret tt) eq_refl ltac:(discriminate))
    as (_ & Hloading' & _ & Hkept).
  cbn in Hrestored, Hkept.
  destruct Hrestored as (_ & Huser & Htoken & _).
  destruct Hkept as (_ & Huser' & _).
  repeat split; assumption.
Defined.

(** [signIn] of the auth provider never rejects, and when it has ended the
    loading flag is off.  When the Apple dialog fails, nothing is sent and
    nothing is stored, user and token are [null] and the error is the
    message [handleApiError] gives for the failure of the dialog.  When the
    dialog resolves to a credential, the outcome is that of
    [signInWithApple] on the request built from it: if that returned, the
    auth state carries the user and the session token of the returned
    response, with no error, and that token is the one now in the secure
    store; if it threw, user and token are [null] and the error is the
    message [handleApiError] gives for what it threw. *)
Theorem AuthProvider_signIn_outcome :
  forall env fuel (credential : Thrown + JsValue) (s s' : Sys) (o : Outcome unit),
    AuthProvider_signIn env fuel credential s = (o, s') ->
    o <> OutOfFuel ->
    (forall c, credential = inr c -> nullish c = false) ->
    o = Ret tt
    /\ AuthContext.isLoading (authState s') = false
    /\ match credential with
       | inl e =>
           world s' = world s
           /\ AuthContext.user (authState s') = JNull
           /\ AuthContext.sessionToken (authState s') = JNull
           /\ handleApiError (thrown_js e)
              = Some (AuthContext.error (authState s'))
       | inr c =>
           match signInWithApple env fuel (signIn_request c) (world s) with
           | (Ret authResponse, w1) =>
               world s' = w1
               /\ AuthContext.user (authState s') = get_opt authResponse "user"
               /\ AuthContext.sessionToken (authState s')
                  = get_opt authResponse "sessionToken"
               /\ AuthContext.error (authState s') = JNull
               /\ exists token,
                    get_opt authResponse "sessionToken" = JStr token
                    /\ store w1 = Some token
           | (Throw e, w1) =>
               world s' = w1
               /\ AuthContext.user (authState s') = JNull
               /\ AuthContext.sessionToken (authState s') = JNull
               /\ handleApiError (thrown_js e)
                  = Some (AuthContext.error (authState s'))
           | (OutOfFuel, _) => False
           end
       end.
Proof.
  intros env fuel credential s s' o.
  unfold AuthProvider_signIn.
  rewrite (bind_Ret (dispatchAuth AuthContext.SIGN_IN_START) _ s tt _ eq_refl).
  set (s0 := set_authState
               (AuthContext.authReducer (authState s) AuthContext.SIGN_IN_START) s).
  assert (Hfail : forall e (x : Sys),
    bind (handleApiError_m (thrown_js e))
      (fun errorMessage => dispatchAuth (AuthContext.SIGN_IN_ERROR errorMessage)) x
    = (o, s') ->
    o = Ret tt
    /\ AuthContext.isLoading (authState s') = false
    /\ world s' = world x
    /\ AuthContext.user (authState s') = JNull
    /\ AuthContext.sessionToken (authState s') = JNull
    /\ handleApiError (thrown_js e) = Some (AuthContext.error (authState s'))).
  { intros e x.
    destruct (handleApiError_thrown e) as [message Hm].
    unfold bind, handleApiError_m. rewrite Hm. cbn.
    intros H. inversion H; subst. cbn. repeat split. }
  unfold try_catch, bind at 1, external.
  destruct credential as [e | c].
  - cbn [throw]. intros H _ _.
    destruct (Hfail e s0 H) as (Ho & Hl & Hw & Hu & Ht & He).
    repeat split; assumption.
  - cbn [ret]. intros H Ho Hobject.
    specialize (Hobject c eq_refl).
    assert (Hget : forall k, get c k = Some (get_opt c k)).
    { intros k. unfold get_opt, get.
      destruct c; try discriminate Hobject; reflexivity. }
    revert H.
    unfold bind at 1, prop. rewrite Hget. cbn [ret].
    unfold bind at 1. rewrite Hget. cbn [ret].
    unfold bind at 1. rewrite Hget. cbn [ret].
    unfold bind at 1, liftW. cbn [world s0 set_authState].
    change (JObj
              [("identityToken", or_else (get_opt c "identityToken") (JStr ""));
               ("user",
                 JObj
                   [("firstName",
                      or_else (get_opt (get_opt c "fullName") "givenName") JUndefined);
                    ("lastName",
                      or_else (get_opt (get_opt c "fullName") "familyName") JUndefined);
                    ("email", or_else (get_opt c "email") JUndefined)])])
      with (signIn_request c).
    destruct (signInWithApple env fuel (signIn_request c) (world s))
      as [[payload | e |] w'] eqn:Hs.
    + assert (Htok : exists token,
                get payload "sessionToken" = Some (JStr token) /\ store w' = Some token).
      { unfold signInWithApple in Hs.
        apply bind_Ret_inv in Hs. destruct Hs as ([] & w1 & _ & Hs).
        apply bind_Ret_inv in Hs. destruct Hs as (response & w2 & _ & Hs).
        apply (store_then_return env _ _ _ _ Hs). }
      destruct Htok as (token & Htoken & Hstore).
      assert (Huser : get payload "user" = Some (get_opt payload "user")).
      { unfold get_opt. destruct payload; try discriminate Htoken; reflexivity. }
      assert (Htoken' : get_opt payload "sessionToken" = JStr token).
      { unfold get_opt. rewrite Htoken. reflexivity. }
      unfold bind, prop. rewrite Huser, Htoken. cbn.
      intros H. inversion H; subst. cbn.
      repeat split; try assumption.
      * symmetry. exact Htoken'.
      * exists token. split; [exact Htoken' | exact Hstore].
    + intros H. destruct (Hfail e _ H) as (Hret & Hl & Hw & Hu & Ht & He).
      repeat split; assumption.
    + intros H. inversion H; subst. contradiction.
Qed.

Lemma AuthProvider_signIn_outcome_witness :
  let start := mkSys (fresh_world None) CreditContext.initialState
                 AuthContext.initialState PhotoTransform.initialState in
  let run := AuthProvider_signIn env_refreshable 1
               (inr (JObj [("identityToken", JStr "apple-jwt");
                           ("fullName", JNull); ("email", JNull)]))
               start in
  AuthContext.isLoading (authState (snd run)) = false
  /\ AuthContext.sessionToken (authState (snd run)) = JStr "tok-2"
  /\ store (world (snd run)) = Some "tok-2".
Proof.
  intros start run.
  destruct (AuthProvider_signIn_outcome env_refreshable 1 _ start (snd run) (fst run)
              (surjective_pairing run))
    as (_ & Hloading & Hrun).
  - vm_compute. discriminate.
  - intros c Hc. inversion Hc; subst. reflexivity.
  - cbn in Hrun. destruct Hrun as (_ & _ & Htoken & _).
    split; [exact Hloading | split; [exact Htoken | reflexivity]].
Defined.

(** ** The credit provider *)




(** ** Purchases *)

(** [purchaseCredits] of the credit provider, step by step. *)
Lemma purchaseCredits_run env (fuel : nat) (now : Z) (packageId : string) (u : Ui) :
  purchaseCredits env fuel now packageId u =
    let c := creditState (sys u) in
    let shown := ("Mock Purchase", "Would purchase: " ++ packageId) :: alerts u in
    let rest x :=
      mkUi x shown (navigation u) (signIn_isLoading u) (main_showError u)
        (main_showBackgroundModal u) (purchase_showError u) in
    match api_purchaseCredits env fuel
            (JObj [("packageId", JNum (parseInt10 packageId));
                   ("appleReceiptData", JStr ("mock_" ++ to_string (int now)))])
            (world (sys u)) with
    | (Ret result, w1) =>
        (Ret true,
         rest (mkSys w1
                 (mkCreditState
                    (add (photoCredits c) (get_opt result "creditsAwarded"))
                    (subscriptionTier c) (availablePackages c)
                    (result :: purchaseHistory c) true JNull)
                 (authState (sys u)) (transformState (sys u))))
    | (Throw e, w1) =>
        (Ret false,
         rest (mkSys w1
                 (mkCreditState (photoCredits c) (subscriptionTier c)
                    (availablePackages c) (purchaseHistory c) false
                    match handleApiError (thrown_js e) with
                    | Some message => message
                    | None => JUndefined
                    end)
                 (authState (sys u)) (transformState (sys u))))
    | (OutOfFuel, w1) =>
        (OutOfFuel,
         rest (mkSys w1
                 (mkCreditState (photoCredits c) (subscriptionTier c)
                    (availablePackages c) (purchaseHistory c) true JNull)
                 (authState (sys u)) (transformState (sys u))))
    end.
Proof.
  unfold purchaseCredits, try_catch, MockStoreKit_requestPurchase, alert.
  unfold bind at 1, liftS at 1, dispatchCredit at 1, modify at 1.
  unfold bind at 1 2, modify at 1, ret at 1.
  unfold bind at 1, prop at 1. cbn [get lookup String.eqb Ascii.eqb Bool.eqb ret].
  cbn [truthy]. unfold bind at 1, prop at 1.
  cbn [get lookup String.eqb Ascii.eqb Bool.eqb ret].
  unfold bind at 1, liftS at 1, liftW.
  cbn [sys set_sys world set_creditState creditState authState transformState
       alerts navigation signIn_isLoading main_showError main_showBackgroundModal
       purchase_showError].
  destruct (api_purchaseCredits env fuel _ (world (sys u))) as [[result | e |] w1].
  - cbv zeta. destruct result; reflexivity.
  - destruct (handleApiError_thrown e) as [message Hm].
    unfold bind, handleApiError_m. rewrite Hm. reflexivity.
  - reflexivity.
Qed.



(** After a purchase whose response has the declared shape
    [CreditPurchaseResponse], the balance is NaN, so [hasCredits] is false:
    with a photo selected, the main screen sends the user to the purchase
    screen instead of opening the background dialog. *)
Theorem no_credits_after_purchase :
  forall env fuel (now z : Z) (packageId image : string) (u : Ui)
         (p : CreditPurchaseResponse),
    photoCredits (creditState (sys u)) = int z ->
    currentImage (transformState (sys u)) = Some image ->
    image <> "" ->
    fst (api_purchaseCredits env fuel
           (JObj [("packageId", JNum (parseInt10 packageId));
                  ("appleReceiptData", JStr ("mock_" ++ to_string (int now)))])
           (world (sys u)))
    = Ret (JObj (purchase_fields p)) ->
    exists u',
      purchaseCredits env fuel now packageId u = (Ret true, u')
      /\ photoCredits (creditState (sys u')) = JNum JNaN
      /\ checkCredits (sys u') = false
      /\ MainScreen_handleStartTransform u'
         = (Ret tt,
            mkUi (sys u') (alerts u') (("push", "/(app)/purchase") :: navigation u')
              (signIn_isLoading u') (main_showError u') (main_showBackgroundModal u')
              (purchase_showError u')).
Proof.
  intros env fuel now z packageId image u p Hz Himg Hne Hapi.
  rewrite purchaseCredits_run. cbv zeta.
  destruct (api_purchaseCredits env fuel _ (world (sys u))) as [[result | e |] w1];
    cbn [fst] in Hapi; try discriminate Hapi.
  inversion Hapi; subst result. clear Hapi.
  eexists. split; [reflexivity |].
  cbn [sys creditState photoCredits]. rewrite Hz.
  split; [reflexivity |]. split; [reflexivity |].
  unfold MainScreen_handleStartTransform, bind, gets.
  cbn [sys transformState]. rewrite Himg, (truthy_token_Some image Hne).
  reflexivity.
Qed.

Lemma no_credits_after_purchase_witness :
  exists u',
    purchaseCredits env_shop 1 1700000000000 "2"
      (screens (app (fresh_world (Some "tok-1")) 3 (Some picked_image)))
    = (Ret true, u')
    /\ photoCredits (creditState (sys u')) = JNum JNaN
    /\ checkCredits (sys u') = false
    /\ MainScreen_handleStartTransform u'
       = (Ret tt,
          mkUi (sys u') (alerts u') (("push", "/(app)/purchase") :: navigation u')
            (signIn_isLoading u') (main_showError u') (main_showBackgroundModal u')
            (purchase_showError u')).
Proof.
  apply (no_credits_after_purchase env_shop 1 1700000000000 3 "2" picked_image
           (screens (app (fresh_world (Some "tok-1")) 3 (Some picked_image)))
           (mkCreditPurchaseResponse "p-1" 8 1 "completed" "receipt"
              "2024-01-01T00:00:00.000Z")).
  - reflexivity.
  - reflexivity.
  - discriminate.
  - reflexivity.
Defined.

(** [handlePurchase] of the purchase screen shows the success alert
    whenever [purchaseCredits] has ended, whether it resolved to [true] or
    to [false]: the alert follows the mock store's alert, the error flag of
    the screen is not touched, and the handler never rejects. *)
Theorem handlePurchase_always_announces_success :
  forall env fuel (now : Z) (packageKey : CREDIT_PACKAGES.key) (u u' : Ui)
         (o : Outcome unit),
    PurchaseScreen_handlePurchase env fuel now packageKey u = (o, u') ->
    o <> OutOfFuel ->
    o = Ret tt
    /\ (exists id,
          alerts u'
          = ("Purchase Successful! 🎉",
             "You've received "
             ++ to_string (int (CREDIT_PACKAGES.credits packageKey)) ++ " credits!")
            :: ("Mock Purchase", "Would purchase: " ++ id) :: alerts u
          /\ parseInt10 id
             = JInt match packageKey with
                    | CREDIT_PACKAGES.basic => 1
                    | CREDIT_PACKAGES.value => 2
                    | CREDIT_PACKAGES.pro => 3
                    end)
    /\ purchase_showError u' = purchase_showError u.
Proof.
  intros env fuel now packageKey u u' o.
  unfold PurchaseScreen_handlePurchase, try_catch. cbv zeta.
  unfold bind. rewrite purchaseCredits_run. cbv zeta.
  destruct (api_purchaseCredits env fuel _ (world (sys u))) as [[result | e |] w1];
    cbn; intros H Ho; inversion H; subst; cbn;
    try contradiction;
    (split; [reflexivity |]; split; [| reflexivity];
     eexists; split; [reflexivity |]; destruct packageKey; reflexivity).
Qed.

Lemma handlePurchase_always_announces_success_witness :
  let run := PurchaseScreen_handlePurchase env_offline 1 1700000000000
               CREDIT_PACKAGES.value
               (screens (app (fresh_world (Some "tok-1")) 3 None)) in
  fst run = Ret tt
  /\ purchase_showError (snd run) = false
  /\ photoCredits (creditState (sys (snd run))) = int 3.
Proof.
  intros run.
  destruct (handlePurchase_always_announces_success env_offline 1 1700000000000
              CREDIT_PACKAGES.value
              (screens (app (fresh_world (Some "tok-1")) 3 None))
              (snd run) (fst run) (surjective_pairing run))
    as (H1 & _ & H2).
  - vm_compute. discriminate.
  - split; [exact H1 | split; [exact H2 | reflexivity]].
Defined.

(** ** The sign-in screen *)

Lemma never_throws_try_catch {S A} (m : M S A) h :
  (forall e, never_throws (h e)) -> never_throws (try_catch m h).
Proof.
  intros Hh s e. unfold try_catch.
  destruct (m s) as [[a | e0 |] s1] eqn:Hm; cbn; try discriminate.
  apply Hh.
Qed.

Lemma never_throws_bind {S A B} (m : M S A) (k : A -> M S B) :
  never_throws m -> (forall a, never_throws (k a)) -> never_throws (bind m k).
Proof.
  intros Hm Hk s e. unfold bind. specialize (Hm s).
  destruct (m s) as [[a | e0 |] s1]; cbn in *.
  - apply Hk.
  - exfalso. apply (Hm e0). reflexivity.
  - discriminate.
Qed.

Lemma never_throws_report {S} (e : Thrown) (k : JsValue -> M S unit) :
  (forall message, never_throws (k message)) ->
  never_throws (bind (handleApiError_m (thrown_js e)) k).
Proof.
  intros Hk. destruct (handleApiError_thrown e) as [message Hm].
  unfold handleApiError_m. rewrite Hm.
  intros s e'. unfold bind, ret. apply Hk.
Qed.

Lemma AuthProvider_signIn_never_throws env fuel credential :
  never_throws (AuthProvider_signIn env fuel credential).
Proof.
  unfold AuthProvider_signIn.
  apply never_throws_bind; [intros s e; discriminate |]. intros _.
  apply never_throws_try_catch. intros e.
  apply never_throws_report. intros message s e'. discriminate.
Qed.

(** On a device where Apple sign-in is available, [handleAppleSignIn]
    replaces the route by [/(app)] as soon as [signIn] has ended, whether
    the sign-in succeeded or ended in the error state: [signIn] never
    rejects, so no failure alert is shown; the button's loading flag is off
    afterwards.  Where Apple sign-in is not available, the handler only
    shows the alert that says so. *)
Theorem handleAppleSignIn_always_navigates :
  forall env fuel (credential : Thrown + JsValue) (u : Ui),
    if AuthContext.isAvailable (authState (sys u)) then
      forall o u',
        SignInScreen_handleAppleSignIn env fuel credential u = (o, u') ->
        o <> OutOfFuel ->
        o = Ret tt
        /\ sys u' = snd (AuthProvider_signIn env fuel credential (sys u))
        /\ navigation u' = ("replace", "/(app)") :: navigation u
        /\ alerts u' = alerts u
        /\ signIn_isLoading u' = false
    else
      exists u',
        SignInScreen_handleAppleSignIn env fuel credential u = (Ret tt, u')
        /\ sys u' = sys u
        /\ navigation u' = navigation u
        /\ alerts u'
           = ("Apple Sign-In Unavailable",
              "Apple Sign-In is not available on this device. Please try again or contact support.")
             :: alerts u.
Proof.
  intros env fuel credential u.
  unfold SignInScreen_handleAppleSignIn. unfold bind at 1, gets. cbv beta iota.
  destruct (AuthContext.isAvailable (authState (sys u))) eqn:Hav; cbn [negb].
  - intros o u'.
    unfold try_finally, try_catch, bind, set_signIn_isLoading, modify, liftS, router.
    cbn [sys].
    pose proof (AuthProvider_signIn_never_throws env fuel credential (sys u)) as Hnt.
    destruct (AuthProvider_signIn env fuel credential (sys u)) as [[[] | e |] x];
      cbn [fst snd] in *.
    + cbn. intros H Ho. inversion H; subst. cbn. repeat split.
    + exfalso. apply (Hnt e). reflexivity.
    + cbn. intros H Ho. inversion H; subst. contradiction.
  - unfold SignInScreen_handleAppleSignIn. unfold bind at 1, gets.
    rewrite Hav. cbn [negb].
    eexists. split; [reflexivity |]. repeat split.
Qed.

Lemma handleAppleSignIn_always_navigates_witness :
  let u := screens (app (fresh_world None) 0 None) in
  let run := SignInScreen_handleAppleSignIn env_offline 1
               (inr (JObj [("identityToken", JStr "apple-jwt")])) u in
  fst run = Ret tt
  /\ navigation (snd run) = [("replace", "/(app)")]
  /\ AuthContext.user (authState (sys (snd run))) = JNull.
Proof.
  intros u run.
  pose proof (handleAppleSignIn_always_navigates env_offline 1
                (inr (JObj [("identityToken", JStr "apple-jwt")])) u) as H.
  cbn [AuthContext.isAvailable authState sys u screens app signed_in] in H.
  destruct (H (fst run) (snd run) (surjective_pairing run)) as (H1 & _ & H2 & _).
  - vm_compute. discriminate.
  - split; [exact H1 | split; [exact H2 | reflexivity]].
Defined.

(** ** What the HTTP client leaves alone *)

Section Untouched.

Variable env : Env.
Variable X : Type.
Variable f : World -> X.

Hypothesis f_tick : forall w, f (tick_storage w) = f w.
Hypothesis f_store : forall v w, f (set_store v w) = f w.
Hypothesis f_sent : forall r w, f (log_sent r w) = f w.
Hypothesis f_refresh : forall w, f (log_call "refreshToken" w) = f w.

Lemma untouched_getStoredSessionToken : keeps f (getStoredSessionToken env).
Proof. intros w. rewrite getStoredSessionToken_run. apply f_tick. Qed.

Lemma untouched_clearSessionToken : keeps f (clearSessionToken env).
Proof.
  intros w. rewrite clearSessionToken_run.
  destruct (storage_fails env (storage_ops w)); cbn [snd].
  - apply f_tick.
  - rewrite f_store. apply f_tick.
Qed.

Lemma untouched_storeSessionToken token : keeps f (storeSessionToken env token).
Proof.
  intros w. unfold storeSessionToken, try_catch, setItemAsync, throw.
  destruct token; try reflexivity.
  destruct (storage_fails env (storage_ops w)); cbn [snd].
  - apply f_tick.
  - rewrite f_store. apply f_tick.
Qed.

Lemma untouched_on_rejected (req : Request -> M World Response) (e : Thrown) :
  (forall c, keeps f (req c)) -> keeps f (on_rejected env req e).
Proof.
  intros Hreq. unfold on_rejected.
  destruct (error_config e) as [originalRequest |]; [| apply keeps_throw].
  destruct (is_int (error_status e) 401); [| apply keeps_throw].
  apply keeps_bind.
  - apply keeps_try_catch.
    + apply keeps_bind.
      * unfold refreshToken_via.
        apply keeps_bind; [apply keeps_modify; exact f_refresh |]. intros _.
        apply keeps_bind; [apply Hreq |]. intros response.
        apply keeps_bind; [apply keeps_unwrap |]. intros payload.
        apply keeps_bind; [apply keeps_prop |]. intros token.
        apply keeps_bind; [apply untouched_storeSessionToken |]. intros _.
        apply keeps_ret.
      * intros _.
        apply keeps_bind; [apply untouched_getStoredSessionToken |]. intros token.
        destruct token as [t |]; [| apply keeps_ret].
        destruct (truthy_token (Some t)); apply keeps_ret.
    + intros refreshError.
      apply keeps_bind; [apply untouched_clearSessionToken |]. intros _.
      apply keeps_throw.
  - intros [r |]; [apply Hreq | apply keeps_throw].
Qed.

(** Whatever does not depend on the store, on the requests sent or on the
    refreshes started is the same after a request as before it. *)
Lemma untouched_request (fuel : nat) :
  forall config, keeps f (request env fuel config).
Proof.
  induction fuel as [| n IH]; intros config.
  - apply keeps_diverge.
  - cbn [request]. apply keeps_bind.
    + unfold on_request.
      apply keeps_bind; [apply untouched_getStoredSessionToken |].
      intros token. apply keeps_ret.
    + intros config'. apply keeps_try_catch.
      * intros w. unfold send. cbn [snd]. apply f_sent.
      * intros e. apply untouched_on_rejected. exact IH.
Qed.

End Untouched.

Lemma times_called_other (name other : string) (w : World) :
  other <> name -> times_called name (log_call other w) = times_called name w.
Proof.
  intros Hne. unfold times_called. cbn [calls log_call].
  apply count_occ_cons_neq. exact Hne.
Qed.

(** The HTTP client enters no facade operation but [refreshToken]. *)
Lemma request_enters_nothing env (name : string) (fuel : nat) (config : Request) :
  name <> "refreshToken" ->
  keeps (times_called name) (request env fuel config).
Proof.
  intros Hne. apply untouched_request; try (intros; reflexivity).
  intros w. apply times_called_other. congruence.
Qed.

(** ** Requests are only ever added *)

Lemma extends_refl (w : World) : extends w w.
Proof. exists []. reflexivity. Qed.

Lemma extends_trans (w1 w2 w3 : World) :
  extends w1 w2 -> extends w2 w3 -> extends w1 w3.
Proof.
  intros [l1 H1] [l2 H2]. exists (l2 ++ l1)%list.
  rewrite H2, H1. apply app_assoc.
Qed.

Lemma only_sends_of_keeps {A} (m : M World A) : keeps sent m -> only_sends m.
Proof. intros H w. exists []. apply H. Qed.

Lemma only_sends_bind {A B} (m : M World A) (k : A -> M World B) :
  only_sends m -> (forall a, only_sends (k a)) -> only_sends (bind m k).
Proof.
  intros Hm Hk w. unfold bind. specialize (Hm w).
  destruct (m w) as [[a | e |] w1]; cbn [snd] in *; try assumption.
  apply (extends_trans _ _ _ Hm (Hk a w1)).
Qed.

Lemma only_sends_try_catch {A} (m : M World A) h :
  only_sends m -> (forall e, only_sends (h e)) -> only_sends (try_catch m h).
Proof.
  intros Hm Hh w. unfold try_catch. specialize (Hm w).
  destruct (m w) as [[a | e |] w1]; cbn [snd] in *; try assumption.
  apply (extends_trans _ _ _ Hm (Hh e w1)).
Qed.

Section OnlySends.

Variable env : Env.

Lemma only_sends_getStoredSessionToken : only_sends (getStoredSessionToken env).
Proof. apply only_sends_of_keeps. intros w. rewrite getStoredSessionToken_run. reflexivity. Qed.

Lemma only_sends_clearSessionToken : only_sends (clearSessionToken env).
Proof.
  apply only_sends_of_keeps. intros w. rewrite clearSessionToken_run.
  destruct (storage_fails env (storage_ops w)); reflexivity.
Qed.

Lemma only_sends_storeSessionToken token : only_sends (storeSessionToken env token).
Proof.
  apply only_sends_of_keeps. intros w.
  unfold storeSessionToken, try_catch, setItemAsync, throw.
  destruct token; try reflexivity.
  destruct (storage_fails env (storage_ops w)); reflexivity.
Qed.

Lemma only_sends_on_rejected (req : Request -> M World Response) (e : Thrown) :
  (forall c, only_sends (req c)) -> only_sends (on_rejected env req e).
Proof.
  intros Hreq. unfold on_rejected.
  destruct (error_config e) as [originalRequest |];
    [| apply only_sends_of_keeps, keeps_throw].
  destruct (is_int (error_status e) 401); [| apply only_sends_of_keeps, keeps_throw].
  apply only_sends_bind.
  - apply only_sends_try_catch.
    + apply only_sends_bind.
      * unfold refreshToken_via.
        apply only_sends_bind.
        { apply only_sends_of_keeps, keeps_modify. reflexivity. }
        intros _. apply only_sends_bind; [apply Hreq |]. intros response.
        apply only_sends_bind; [apply only_sends_of_keeps, keeps_unwrap |].
        intros payload.
        apply only_sends_bind; [apply only_sends_of_keeps, keeps_prop |].
        intros token.
        apply only_sends_bind; [apply only_sends_storeSessionToken |]. intros _.
        apply only_sends_of_keeps, keeps_ret.
      * intros _.
        apply only_sends_bind; [apply only_sends_getStoredSessionToken |].
        intros token. apply only_sends_of_keeps.
        destruct token as [t |]; [| apply keeps_ret].
        destruct (truthy_token (Some t)); apply keeps_ret.
    + intros refreshError.
      apply only_sends_bind; [apply only_sends_clearSessionToken |]. intros _.
      apply only_sends_of_keeps, keeps_throw.
  - intros [r |]; [apply Hreq | apply only_sends_of_keeps, keeps_throw].
Qed.

Lemma only_sends_request (fuel : nat) :
  forall config, only_sends (request env fuel config).
Proof.
  induction fuel as [| n IH]; intros config.
  - apply only_sends_of_keeps, keeps_diverge.
  - cbn [request]. apply only_sends_bind.
    + unfold on_request.
      apply only_sends_bind; [apply only_sends_getStoredSessionToken |].
      intros token. apply only_sends_of_keeps, keeps_ret.
    + intros config'. apply only_sends_try_catch.
      * intros w. exists [config']. reflexivity.
      * intros e. apply only_sends_on_rejected. exact IH.
Qed.

(** The first request a call of the client puts on the wire is the given
    one, as the request interceptor leaves it. *)
Lemma request_first_sent (fuel : nat) (config : Request) (w : World) :
  exists l,
    sent (snd (request env (S fuel) config w))
    = (l ++ authorized (if storage_fails env (storage_ops w) then None else store w)
              config :: sent w)%list.
Proof.
  rewrite request_S.
  rewrite (bind_Ret _ _ _ _ _ (on_request_run env config w)).
  set (config' := authorized _ config).
  unfold try_catch, send. cbn [sent tick_storage].
  destruct (settle config' (server env (sent w) config')) as [r | e |].
  - exists []. reflexivity.
  - destruct (only_sends_on_rejected (request env fuel) e (only_sends_request fuel)
                (log_sent config' (tick_storage w))) as [l Hl].
    exists l. rewrite Hl. reflexivity.
  - exists []. reflexivity.
Qed.

Lemma only_sends_getCreditBalance (fuel : nat) : only_sends (getCreditBalance env fuel).
Proof.
  unfold getCreditBalance. apply only_sends_bind.
  { apply only_sends_of_keeps, keeps_modify. reflexivity. }
  intros _. apply only_sends_bind; [apply only_sends_request |]. intros response.
  apply only_sends_of_keeps, keeps_unwrap.
Qed.

End OnlySends.

(** ** The transform upload *)

Section Upload.

Variable env : Env.

Lemma world_after_resync {A} (fuel : nat) (out : A) (s1 : Sys) :
  world (snd (bind (refreshBalance env fuel) (fun _ => ret out) s1))
  = snd (getCreditBalance env fuel (world s1)).
Proof.
  unfold bind. rewrite refreshBalance_run. cbv zeta.
  destruct (getCreditBalance env fuel (world s1)) as [[payload | e |] w']; reflexivity.
Qed.

(** Where [transformPhoto] leaves the world once its guards are passed:
    after the balance fetch that follows the transform call, or after the
    transform call when that one does not end. *)
Lemma world_after_transformPhoto (fuel : nat) backgroundType customPrompt
  (s : Sys) (image : string) :
  currentImage (transformState s) = Some image ->
  image <> "" ->
  checkCredits s = true ->
  let after_call :=
    snd (api_transformPhoto env fuel image backgroundType customPrompt (world s)) in
  world (snd (transformPhoto env fuel backgroundType customPrompt s)) = after_call
  \/ world (snd (transformPhoto env fuel backgroundType customPrompt s))
     = snd (getCreditBalance env fuel after_call).
Proof.
  intros Himg Hne Hcred. cbv zeta.
  rewrite (transformPhoto_run env fuel backgroundType customPrompt s image Himg Hne Hcred).
  cbv zeta.
  destruct (api_transformPhoto env fuel image backgroundType customPrompt (world s))
    as [[res | e |] w1]; cbn [snd].
  - right. apply world_after_resync.
  - right. apply world_after_resync.
  - left. reflexivity.
Qed.

Lemma api_transformPhoto_first_sent (fuel : nat) (image : string)
  backgroundType customPrompt (w : World) :
  exists l,
    sent (snd (api_transformPhoto env (S fuel) image backgroundType customPrompt w))
    = (l ++ authorized (if storage_fails env (storage_ops w) then None else store w)
              (mkRequest "post" API_ENDPOINTS.transform_create "multipart/form-data"
                 None (transformPhoto_form image backgroundType customPrompt))
         :: sent w)%list.
Proof.
  unfold api_transformPhoto.
  rewrite (bind_Ret (modify (log_call "transformPhoto")) _ w tt
             (log_call "transformPhoto" w) eq_refl).
  destruct (request_first_sent env fuel
              (mkRequest "post" API_ENDPOINTS.transform_create "multipart/form-data"
                 None (transformPhoto_form image backgroundType customPrompt))
              (log_call "transformPhoto" w)) as [l Hl].
  cbn [storage_ops store sent log_call] in Hl.
  exists l. unfold bind.
  destruct (request env (S fuel) _ (log_call "transformPhoto" w))
    as [[response | e |] w1]; cbn [snd] in Hl |- *; try exact Hl.
  rewrite (keeps_unwrap sent response "Photo transformation failed" w1). exact Hl.
Qed.

Lemma api_transformPhoto_entered (fuel : nat) (image : string)
  backgroundType customPrompt (w : World) :
  times_called "transformPhoto"
    (snd (api_transformPhoto env fuel image backgroundType customPrompt w))
  = S (times_called "transformPhoto" w).
Proof.
  unfold api_transformPhoto.
  rewrite (bind_Ret (modify (log_call "transformPhoto")) _ w tt
             (log_call "transformPhoto" w) eq_refl).
  assert (H : keeps (times_called "transformPhoto")
                (bind (request env fuel
                         (mkRequest "post" API_ENDPOINTS.transform_create
                            "multipart/form-data" None
                            (transformPhoto_form image backgroundType customPrompt)))
                      (fun response => unwrap response "Photo transformation failed"))).
  { apply keeps_bind.
    - apply request_enters_nothing. discriminate.
    - intros response. apply keeps_unwrap. }
  rewrite H. apply times_called_log_call.
Qed.

Lemma getCreditBalance_enters_nothing_else (fuel : nat) (w : World) :
  times_called "transformPhoto" (snd (getCreditBalance env fuel w))
  = times_called "transformPhoto" w.
Proof.
  unfold getCreditBalance.
  rewrite (bind_Ret (modify (log_call "getCreditBalance")) _ w tt
             (log_call "getCreditBalance" w) eq_refl).
  assert (H : keeps (times_called "transformPhoto")
                (bind (request env fuel (get_request API_ENDPOINTS.credits_balance))
                      (fun response => unwrap response "Failed to get credit balance"))).
  { apply keeps_bind.
    - apply request_enters_nothing. discriminate.
    - intros response. apply keeps_unwrap. }
  rewrite H. apply times_called_other. discriminate.
Qed.

End Upload.

(** Once the guards of [transformPhoto] are passed, the first request the
    call puts on the wire is the multipart POST to [/api/transform], under
    the stored bearer token; its form holds the selected image, the chosen
    background type, and the custom prompt exactly when that is a non-empty
    string. *)
Theorem transformPhoto_uploads_the_selected_image :
  forall env fuel backgroundType customPrompt (s : Sys) (image : string),
    currentImage (transformState s) = Some image ->
    image <> "" ->
    checkCredits s = true ->
    let form := transformPhoto_form image backgroundType customPrompt in
    (exists l,
       sent (world (snd (transformPhoto env (S fuel) backgroundType customPrompt s)))
       = (l ++ authorized
                 (if storage_fails env (storage_ops (world s)) then None
                  else store (world s))
                 (mkRequest "post" "/api/transform" "multipart/form-data" None form)
            :: sent (world s))%list)
    /\ get_opt (get_opt form "image") "uri" = JStr image
    /\ get_opt form "backgroundType" = JStr (background_name backgroundType)
    /\ get_opt form "customPrompt"
       = match customPrompt with
         | Some p => if String.eqb p "" then JUndefined else JStr p
         | None => JUndefined
         end.
Proof.
  intros env fuel bg prompt s image Himg Hne Hcred form.
  split; [| split; [reflexivity | split; [reflexivity |]]].
  - destruct (api_transformPhoto_first_sent env fuel image bg prompt (world s))
      as [l Hl].
    destruct (world_after_transformPhoto env (S fuel) bg prompt s image Himg Hne Hcred)
      as [Hw | Hw]; rewrite Hw.
    + exists l. exact Hl.
    + destruct (only_sends_getCreditBalance env (S fuel)
                  (snd (api_transformPhoto env (S fuel) image bg prompt (world s))))
        as [l2 Hl2].
      exists (l2 ++ l)%list. rewrite Hl2, Hl. apply app_assoc.
  - unfold form, transformPhoto_form.
    destruct prompt as [p |]; [| reflexivity].
    cbn [truthy_token]. destruct (String.eqb p ""); reflexivity.
Qed.

Lemma transformPhoto_uploads_the_selected_image_witness :
  exists l,
    sent (world (snd (transformPhoto env_refreshable 2 cartoon (Some "")
                        (app (fresh_world (Some "tok-1")) 3 (Some picked_image)))))
    = (l ++ [mkRequest "post" "/api/transform" "multipart/form-data"
               (Some "Bearer tok-1")
               (JObj [("image", JObj [("uri", JStr picked_image);
                                      ("type", JStr "image/jpeg");
                                      ("name", JStr "photo.jpg")]);
                      ("backgroundType", JStr "cartoon")])])%list.
Proof.
  apply (transformPhoto_uploads_the_selected_image env_refreshable 1 cartoon (Some "")
           (app (fresh_world (Some "tok-1")) 3 (Some picked_image)) picked_image).
  - reflexivity.
  - discriminate.
  - reflexivity.
Defined.

(** ** The main screen *)

(** [handleStartTransform] changes nothing in the application, and it
    opens the background dialog only when [transformPhoto] would pass its
    guards: a following [handleConfirmTransform] closes the dialog and
    enters the transform call of the API service exactly once. *)
Theorem start_then_confirm_calls_the_backend :
  forall env fuel backgroundType customPrompt (u u1 : Ui),
    MainScreen_handleStartTransform u = (Ret tt, u1) ->
    main_showBackgroundModal u = false ->
    main_showBackgroundModal u1 = true ->
    let u2 := snd (MainScreen_handleConfirmTransform env fuel backgroundType
                     customPrompt u1) in
    sys u1 = sys u
    /\ main_showBackgroundModal u2 = false
    /\ times_called "transformPhoto" (world (sys u2))
       = S (times_called "transformPhoto" (world (sys u))).
Proof.
  intros env fuel bg prompt u u1 H Hu Hu1. cbv zeta.
  unfold MainScreen_handleStartTransform, bind, gets in H. cbv beta iota in H.
  destruct (currentImage (transformState (sys u))) as [image |] eqn:Himg.
  2:{ cbn in H. inversion H; subst. cbn in Hu1. congruence. }
  destruct (truthy_token (Some image)) eqn:Ht; cbn [negb] in H.
  2:{ cbn in H. inversion H; subst. cbn in Hu1. congruence. }
  destruct (checkCredits (sys u)) eqn:Hcred; cbn [negb] in H.
  2:{ cbn in H. inversion H; subst. cbn in Hu1. congruence. }
  cbn in H. inversion H; subst. clear H. cbn [sys].
  assert (Hne : image <> "").
  { intros E. subst image. discriminate Ht. }
  split; [reflexivity |].
  unfold MainScreen_handleConfirmTransform, set_main_showBackgroundModal.
  rewrite (bind_Ret (modify _) _ _ tt _ eq_refl).
  unfold bind, liftS. cbn [sys].
  pose proof (world_after_transformPhoto env fuel bg prompt (sys u) image
                Himg Hne Hcred) as Hworld. cbv zeta in Hworld.
  pose proof (api_transformPhoto_entered env fuel image bg prompt (world (sys u)))
    as Hentered.
  assert (Hcount :
    times_called "transformPhoto"
      (world (snd (transformPhoto env fuel bg prompt (sys u))))
    = S (times_called "transformPhoto" (world (sys u)))).
  { destruct Hworld as [Hw | Hw]; rewrite Hw.
    - exact Hentered.
    - rewrite getCreditBalance_enters_nothing_else. exact Hentered. }
  destruct (transformPhoto env fuel bg prompt (sys u)) as [[result | e |] x];
    cbn [snd] in Hcount.
  - destruct (negb (success result) && truthy (outcome_error result));
      cbn; split; [reflexivity | exact Hcount | reflexivity | exact Hcount].
  - cbn. split; [reflexivity | exact Hcount].
  - cbn. split; [reflexivity | exact Hcount].
Qed.

Lemma start_then_confirm_calls_the_backend_witness :
  let u := screens (app (fresh_world (Some "tok-1")) 3 (Some picked_image)) in
  let u1 := snd (MainScreen_handleStartTransform u) in
  times_called "transformPhoto"
    (world (sys (snd (MainScreen_handleConfirmTransform env_offline 1 lego None u1))))
  = 1%nat.
Proof.
  intros u u1.
  apply (start_then_confirm_calls_the_backend env_offline 1 lego None u u1);
    reflexivity.
Defined.

(** ** The stored token and the refresh *)

Lemma token_follows_refresh_refl (w : World) : token_follows_refresh w w.
Proof. split; [apply Nat.le_refl | reflexivity]. Qed.

Lemma token_follows_refresh_trans (w1 w2 w3 : World) :
  token_follows_refresh w1 w2 -> token_follows_refresh w2 w3 ->
  token_follows_refresh w1 w3.
Proof.
  intros [H1 K1] [H2 K2]. split; [lia |].
  intros E. rewrite K2 by lia. apply K1. lia.
Qed.

Lemma refresh_started_follows (w w' : World) :
  refresh_started w w' -> token_follows_refresh w w'.
Proof. unfold refresh_started. intros H. split; [lia | intros E; lia]. Qed.

Lemma refresh_started_then (w1 w2 w3 : World) :
  refresh_started w1 w2 ->
  (times_called "refreshToken" w2 <= times_called "refreshToken" w3)%nat ->
  refresh_started w1 w3.
Proof. unfold refresh_started. lia. Qed.

Section TokenAndRefresh.

Variable env : Env.

Lemma counts_up_of_keeps {A} (m : M World A) :
  keeps (times_called "refreshToken") m -> counts_up m.
Proof. intros H w. unfold refreshes. rewrite H. apply Nat.le_refl. Qed.

Lemma counts_up_bind {A B} (m : M World A) (k : A -> M World B) :
  counts_up m -> (forall a, counts_up (k a)) -> counts_up (bind m k).
Proof.
  intros Hm Hk w. unfold bind. specialize (Hm w).
  destruct (m w) as [[a | e |] w1]; cbn [snd] in *; try assumption.
  specialize (Hk a w1). lia.
Qed.

Lemma counts_up_try_catch {A} (m : M World A) h :
  counts_up m -> (forall e, counts_up (h e)) -> counts_up (try_catch m h).
Proof.
  intros Hm Hh w. unfold try_catch. specialize (Hm w).
  destruct (m w) as [[a | e |] w1]; cbn [snd] in *; try assumption.
  specialize (Hh e w1). lia.
Qed.

Lemma counts_up_storage {A} (m : M World A) :
  (forall w, calls (snd (m w)) = calls w) -> counts_up m.
Proof.
  intros H w. unfold refreshes, times_called. rewrite H. apply Nat.le_refl.
Qed.

Lemma calls_getStoredSessionToken w :
  calls (snd (getStoredSessionToken env w)) = calls w.
Proof. rewrite getStoredSessionToken_run. reflexivity. Qed.

Lemma calls_clearSessionToken w :
  calls (snd (clearSessionToken env w)) = calls w.
Proof.
  rewrite clearSessionToken_run.
  destruct (storage_fails env (storage_ops w)); reflexivity.
Qed.

Lemma calls_storeSessionToken token w :
  calls (snd (storeSessionToken env token w)) = calls w.
Proof.
  unfold storeSessionToken, try_catch, setItemAsync, throw.
  destruct token; try reflexivity.
  destruct (storage_fails env (storage_ops w)); reflexivity.
Qed.

Lemma counts_up_refreshToken_via (req : Request -> M World Response) :
  (forall c, counts_up (req c)) -> counts_up (refreshToken_via env req).
Proof.
  intros Hreq. unfold refreshToken_via.
  apply counts_up_bind.
  { intros w. unfold refreshes. cbn [snd modify].
    rewrite times_called_log_call. lia. }
  intros _. apply counts_up_bind; [apply Hreq |]. intros response.
  apply counts_up_bind; [apply counts_up_of_keeps, keeps_unwrap |]. intros payload.
  apply counts_up_bind; [apply counts_up_of_keeps, keeps_prop |]. intros token.
  apply counts_up_bind; [apply counts_up_storage, calls_storeSessionToken |].
  intros _. apply counts_up_of_keeps, keeps_ret.
Qed.

Lemma counts_up_on_rejected (req : Request -> M World Response) (e : Thrown) :
  (forall c, counts_up (req c)) -> counts_up (on_rejected env req e).
Proof.
  intros Hreq. unfold on_rejected.
  destruct (error_config e) as [originalRequest |];
    [| apply counts_up_of_keeps, keeps_throw].
  destruct (is_int (error_status e) 401); [| apply counts_up_of_keeps, keeps_throw].
  apply counts_up_bind.
  - apply counts_up_try_catch.
    + apply counts_up_bind; [apply counts_up_refreshToken_via; exact Hreq |].
      intros _.
      apply counts_up_bind; [apply counts_up_storage, calls_getStoredSessionToken |].
      intros token. apply counts_up_of_keeps.
      destruct token as [t |]; [| apply keeps_ret].
      destruct (truthy_token (Some t)); apply keeps_ret.
    + intros refreshError.
      apply counts_up_bind; [apply counts_up_storage, calls_clearSessionToken |].
      intros _. apply counts_up_of_keeps, keeps_throw.
  - intros [r |]; [apply Hreq | apply counts_up_of_keeps, keeps_throw].
Qed.

Lemma counts_up_request (fuel : nat) :
  forall config, counts_up (request env fuel config).
Proof.
  induction fuel as [| n IH]; intros config.
  - apply counts_up_of_keeps, keeps_diverge.
  - cbn [request]. apply counts_up_bind.
    + unfold on_request.
      apply counts_up_bind; [apply counts_up_storage, calls_getStoredSessionToken |].
      intros token. apply counts_up_of_keeps, keeps_ret.
    + intros config'. apply counts_up_try_catch.
      * intros w. apply Nat.le_refl.
      * intros e. apply counts_up_on_rejected. exact IH.
Qed.

(** Once the handler of a 401 has entered the refresh, a refresh has been
    started whatever follows. *)
Lemma on_rejected_401_starts_refresh (fuel : nat) (e : Thrown)
  (originalRequest : Request) (w : World) :
  error_config e = Some originalRequest ->
  is_int (error_status e) 401 = true ->
  refresh_started w (snd (on_rejected env (request env fuel) e w)).
Proof.
  intros Hc H401. unfold on_rejected. rewrite Hc, H401.
  unfold refresh_started.
  assert (Hfirst : forall A (k : JsValue -> M World A),
            (forall a, counts_up (k a)) ->
            forall w0, (refreshes w0
                        < refreshes (snd (bind (refreshToken_via env (request env fuel))
                                               k w0)))%nat).
  { intros A k Hk w0. unfold refreshToken_via.
    assert (Hrest : counts_up
              (bind (bind (request env fuel (post API_ENDPOINTS.auth_refresh JUndefined))
                       (fun response =>
                          bind (unwrap response "Token refresh failed")
                            (fun payload =>
                               bind (prop payload "sessionToken")
                                 (fun token =>
                                    bind (storeSessionToken env token)
                                      (fun _ => ret payload))))) k)).
    { apply counts_up_bind; [| exact Hk].
      apply counts_up_bind; [apply counts_up_request |]. intros response.
      apply counts_up_bind; [apply counts_up_of_keeps, keeps_unwrap |]. intros payload.
      apply counts_up_bind; [apply counts_up_of_keeps, keeps_prop |]. intros token.
      apply counts_up_bind; [apply counts_up_storage, calls_storeSessionToken |].
      intros _. apply counts_up_of_keeps, keeps_ret. }
    specialize (Hrest (log_call "refreshToken" w0)).
    unfold refreshes in *. rewrite times_called_log_call in Hrest.
    unfold bind at 1 in Hrest. unfold bind at 1.
    rewrite (bind_Ret (modify (log_call "refreshToken")) _ w0 tt
               (log_call "refreshToken" w0) eq_refl).
    exact Hrest. }
  unfold bind at 1, try_catch.
  pose proof (Hfirst Next
                (fun _ =>
                   bind (getStoredSessionToken env)
                     (fun token =>
                        match token with
                        | Some t =>
                            if truthy_token token
                            then ret (Resend (with_authorization originalRequest (bearer t)))
                            else ret Reject
                        | None => ret Reject
                        end))) as Htry.
  assert (Hk : forall a : JsValue,
            counts_up
              (bind (getStoredSessionToken env)
                 (fun token =>
                    match token with
                    | Some t =>
                        if truthy_token token
                        then ret (Resend (with_authorization originalRequest (bearer t)))
                        else ret Reject
                    | None => ret Reject
                    end))).
  { intros _.
    apply counts_up_bind; [apply counts_up_storage, calls_getStoredSessionToken |].
    intros token. apply counts_up_of_keeps.
    destruct token as [t |]; [| apply keeps_ret].
    destruct (truthy_token (Some t)); apply keeps_ret. }
  specialize (Htry (fun _ => Hk JUndefined) w).
  fold refreshes.
  match goal with
  | |- context [bind (refreshToken_via env (request env fuel)) ?k w] =>
      destruct (bind (refreshToken_via env (request env fuel)) k w)
        as [[next | e0 |] w1]
  end; cbn [snd] in Htry |- *.
  - destruct next as [r |]; cbn [snd throw].
    + pose proof (counts_up_request fuel r w1) as Hr. unfold refreshes in *. lia.
    + exact Htry.
  - unfold bind. rewrite clearSessionToken_run. cbn [snd throw].
    pose proof (calls_clearSessionToken w1) as Hc1.
    rewrite clearSessionToken_run in Hc1. cbn [snd] in Hc1.
    unfold refreshes, times_called in *. rewrite Hc1. exact Htry.
  - exact Htry.
Qed.

Lemma request_token_follows_refresh (fuel : nat) :
  forall config w, token_follows_refresh w (snd (request env fuel config w)).
Proof.
  destruct fuel as [| n]; intros config w.
  - apply token_follows_refresh_refl.
  - rewrite request_S.
    rewrite (bind_Ret _ _ _ _ _ (on_request_run env config w)).
    set (config' := authorized _ config).
    unfold try_catch, send. cbn [sent tick_storage].
    assert (Hsame : token_follows_refresh w (log_sent config' (tick_storage w))).
    { split; [apply Nat.le_refl | reflexivity]. }
    destruct (server env (sent w) config') as [r | message]; cbn [settle].
    + destruct (validateStatus (status r)); [exact Hsame |].
      destruct (is_int (int (status r)) 401) eqn:H401.
      * apply (token_follows_refresh_trans _ _ _ Hsame).
        apply refresh_started_follows.
        apply (on_rejected_401_starts_refresh n _ config'); [reflexivity | exact H401].
      * unfold on_rejected. cbn [error_config error_status]. rewrite H401.
        exact Hsame.
    + exact Hsame.
Qed.

End TokenAndRefresh.

(** The HTTP client touches the stored session token only on the refresh
    path: if no refresh was started during a request, the secure store
    holds afterwards what it held before. *)
Theorem token_changes_only_with_a_refresh :
  forall env fuel (config : Request) (w : World),
    times_called "refreshToken" (snd (request env fuel config w))
    = times_called "refreshToken" w ->
    store (snd (request env fuel config w)) = store w.
Proof.
  intros env fuel config w.
  apply (request_token_follows_refresh env fuel config w).
Qed.

Lemma token_changes_only_with_a_refresh_witness :
  store (snd (request env_offline 3 credits_request (fresh_world (Some "tok-1"))))
  = Some "tok-1".
Proof.
  apply (token_changes_only_with_a_refresh env_offline 3 credits_request
           (fresh_world (Some "tok-1"))).
  reflexivity.
Defined.

(** ** Requests after sign-in and after sign-out *)

(** After a sign-in that returned, the next request goes out under the
    returned session token as bearer credential (under no credential if
    that token is the empty string), provided the secure store can be
    read. *)
Theorem requests_after_signIn_carry_the_token :
  forall env fuel fuel' (credential : JsValue) (config : Request)
         (w w1 : World) (payload : JsValue),
    signInWithApple env fuel credential w = (Ret payload, w1) ->
    storage_fails env (storage_ops w1) = false ->
    exists token l,
      get payload "sessionToken" = Some (JStr token)
      /\ sent (snd (request env (S fuel') config w1))
         = (l ++ (if String.eqb token "" then config
                  else with_authorization config ("Bearer " ++ token))
              :: sent w1)%list.
Proof.
  intros env fuel fuel' credential config w w1 payload Hrun Hread.
  assert (Htok : exists token,
            get payload "sessionToken" = Some (JStr token) /\ store w1 = Some token).
  { unfold signInWithApple in Hrun.
    apply bind_Ret_inv in Hrun. destruct Hrun as ([] & w2 & _ & Hrun).
    apply bind_Ret_inv in Hrun. destruct Hrun as (response & w3 & _ & Hrun).
    apply (store_then_return env _ _ _ _ Hrun). }
  destruct Htok as (token & Hget & Hstore).
  destruct (request_first_sent env fuel' config w1) as [l Hl].
  rewrite Hread, Hstore in Hl.
  exists token, l. split; [exact Hget |].
  rewrite Hl. unfold authorized, truthy_token, bearer.
  destruct (String.eqb token ""); reflexivity.
Qed.

Lemma requests_after_signIn_carry_the_token_witness :
  exists token l,
    get (auth_payload "tok-2") "sessionToken" = Some (JStr token)
    /\ sent (snd (request env_refreshable 1 credits_request
                    (snd (signInWithApple env_refreshable 1
                            (JObj [("identityToken", JStr "apple-jwt")])
                            (fresh_world None)))))
       = (l ++ (if String.eqb token "" then credits_request
                else with_authorization credits_request ("Bearer " ++ token))
            :: sent (snd (signInWithApple env_refreshable 1
                            (JObj [("identityToken", JStr "apple-jwt")])
                            (fresh_world None))))%list.
Proof.
  apply (requests_after_signIn_carry_the_token env_refreshable 1 0
           (JObj [("identityToken", JStr "apple-jwt")]) credits_request
           (fresh_world None)); reflexivity.
Defined.

(** After a sign-out whose deletion the secure store accepted, the next
    request goes out as it is, with no bearer credential added. *)
Theorem requests_after_signOut_carry_no_token :
  forall env fuel (config : Request) (w : World),
    storage_fails env (storage_ops w) = false ->
    exists l,
      sent (snd (request env (S fuel) config (snd (signOut env w))))
      = (l ++ config :: sent w)%list.
Proof.
  intros env fuel config w Hdelete.
  unfold signOut.
  rewrite (bind_Ret (modify (log_call "signOut")) _ w tt (log_call "signOut" w) eq_refl).
  rewrite clearSessionToken_run. cbn [storage_ops log_call snd]. rewrite Hdelete.
  destruct (request_first_sent env fuel config
              (set_store None (tick_storage (log_call "signOut" w)))) as [l Hl].
  exists l. rewrite Hl.
  match goal with
  | |- context [if ?b then None else store _] => destruct b
  end; reflexivity.
Qed.

Lemma requests_after_signOut_carry_no_token_witness :
  exists l,
    sent (snd (request env_refreshable 1 credits_request
                 (snd (signOut env_refreshable (fresh_world (Some "tok-2"))))))
    = (l ++ [credits_request])%list.
Proof.
  apply (requests_after_signOut_carry_no_token env_refreshable 0 credits_request
           (fresh_world (Some "tok-2"))).
  reflexivity.
Defined.

(** ** Where the answer of a request comes from *)

Lemma try_catch_Ret_inv {S A} (m : M S A) (h : Thrown -> M S A) s a s' :
  try_catch m h s = (Ret a, s') ->
  m s = (Ret a, s')
  \/ exists e s1, m s = (Throw e, s1) /\ h e s1 = (Ret a, s').
Proof.
  unfold try_catch. destruct (m s) as [[x | e |] s1]; intros H.
  - left. exact H.
  - right. exists e, s1. split; [reflexivity | exact H].
  - discriminate H.
Qed.

Lemma settle_Ret (config : Request) (a : NetResult) (r : Response) :
  settle config a = Ret r -> a = Answer r /\ validateStatus (status r) = true.
Proof.
  unfold settle. destruct a as [r' | message]; [| discriminate].
  destruct (validateStatus (status r')) eqn:Hv; [| discriminate].
  intros H. inversion H; subst. split; [reflexivity | exact Hv].
Qed.

Lemma settle_Throw (config : Request) (a : NetResult) (e : Thrown) :
  settle config a = Throw e -> error_config e = Some config.
Proof.
  unfold settle. destruct a as [r' | message].
  - destruct (validateStatus (status r')); [discriminate |].
    intros H. inversion H; subst. reflexivity.
  - intros H. inversion H; subst. reflexivity.
Qed.

(** Two requests for the same call. *)
Lemma authorized_same (stored : option string) (config : Request) :
  url (authorized stored config) = url config
  /\ method (authorized stored config) = method config
  /\ body (authorized stored config) = body config.
Proof.
  unfold authorized. destruct stored as [t |]; [| repeat split].
  destruct (truthy_token (Some t)); repeat split.
Qed.

(** The rejection handler resolves only on what a resent request resolved
    on. *)
Lemma on_rejected_Ret env (req : Request -> M World Response) (e : Thrown)
  (w w' : World) (response : Response) :
  on_rejected env req e w = (Ret response, w') ->
  exists originalRequest t w2,
    error_config e = Some originalRequest
    /\ req (with_authorization originalRequest (bearer t)) w2 = (Ret response, w').
Proof.
  unfold on_rejected.
  destruct (error_config e) as [originalRequest |]; [| discriminate].
  destruct (is_int (error_status e) 401); [| discriminate].
  intros H. apply bind_Ret_inv in H. destruct H as (next & w2 & Htry & H).
  destruct next as [r |]; [| discriminate H].
  exists originalRequest.
  apply try_catch_Ret_inv in Htry. destruct Htry as [Hbody | (e' & s1 & _ & Hh)].
  - apply bind_Ret_inv in Hbody. destruct Hbody as (payload & w3 & _ & Hbody).
    apply bind_Ret_inv in Hbody. destruct Hbody as (token & w4 & _ & Hbody).
    destruct token as [t |]; [| discriminate Hbody].
    destruct (truthy_token (Some t)); [| discriminate Hbody].
    inversion Hbody; subst. exists t, w2. split; [reflexivity | exact H].
  - apply bind_Ret_inv in Hh. destruct Hh as (x & s2 & _ & Hh). discriminate Hh.
Qed.

(** A response that [client.request] resolves on is an answer that the
    backend gave, with a status that axios accepts, to one of the requests
    sent for this call. *)
Lemma request_Ret_origin env (fuel : nat) :
  forall (config : Request) (w w' : World) (response : Response),
    request env fuel config w = (Ret response, w') ->
    exists log r l,
      url r = url config /\ method r = method config /\ body r = body config
      /\ sent w' = (l ++ r :: log)%list
      /\ server env log r = Answer response
      /\ validateStatus (status response) = true.
Proof.
  induction fuel as [| n IH]; intros config w w' response H.
  - discriminate H.
  - rewrite request_S in H.
    rewrite (bind_Ret _ _ _ _ _ (on_request_run env config w)) in H.
    set (config' := authorized _ config) in H.
    destruct (authorized_same
                (if storage_fails env (storage_ops w) then None else store w) config)
      as (Hurl & Hmethod & Hbody).
    fold config' in Hurl, Hmethod, Hbody.
    apply try_catch_Ret_inv in H. destruct H as [Hsend | (e & s1 & Hsend & Hrej)].
    + unfold send in Hsend. inversion Hsend as [[Hsettle Hw]].
      apply settle_Ret in Hsettle. destruct Hsettle as [Hans Hvalid].
      exists (sent (tick_storage w)), config', [].
      repeat split; assumption || reflexivity.
    + unfold send in Hsend. inversion Hsend as [[Hsettle Hw]].
      apply settle_Throw in Hsettle.
      apply on_rejected_Ret in Hrej.
      destruct Hrej as (originalRequest & t & w2 & Hconfig & Hresend).
      rewrite Hsettle in Hconfig. inversion Hconfig; subst originalRequest.
      apply IH in Hresend.
      destruct Hresend as (log & r & l & Hu & Hm & Hb & Hsent & Hans & Hvalid).
      exists log, r, l. cbn [with_authorization url method body] in Hu, Hm, Hb.
      repeat split; try assumption; congruence.
Qed.

(** What the envelope check returns is the [data] member of an envelope
    whose [success] is truthy. *)
Lemma unwrap_Ret_data (r : Response) (fallback : string) (w w' : World)
  (payload : JsValue) :
  unwrap r fallback w = (Ret payload, w') ->
  payload = get_opt (data r) "data"
  /\ truthy (get_opt (data r) "success") = true
  /\ truthy payload = true
  /\ w' = w.
Proof.
  unfold unwrap. intros H.
  apply bind_Ret_inv in H. destruct H as (success & w1 & Hs & H).
  apply prop_Ret in Hs. destruct Hs as [Hsuccess ->].
  apply bind_Ret_inv in H. destruct H as (p & w2 & Hp & H).
  destruct (truthy p) eqn:Htruthy.
  2:{ apply bind_Ret_inv in H. destruct H as (x & w3 & _ & H). discriminate H. }
  inversion H; subst p w2. clear H.
  destruct (truthy success) eqn:Hts.
  - apply prop_Ret in Hp. destruct Hp as [Hdata ->].
    unfold get_opt. rewrite Hdata, Hsuccess. repeat split; assumption.
  - inversion Hp; subst. rewrite Hts in Htruthy. discriminate Htruthy.
Qed.

(** ** The cycle against the backend *)

Lemma getCreditBalance_reports env (fuel : nat) (w w' : World) (payload : JsValue) :
  reports_credit_counts env ->
  getCreditBalance env fuel w = (Ret payload, w') ->
  nonneg_int (get_opt payload "photoCredits").
Proof.
  intros Hreports H. unfold getCreditBalance in H.
  apply bind_Ret_inv in H. destruct H as ([] & w1 & _ & H).
  apply bind_Ret_inv in H. destruct H as (response & w2 & Hreq & H).
  apply request_Ret_origin in Hreq.
  destruct Hreq as (log & r & l & Hurl & _ & _ & _ & Hans & Hvalid).
  apply unwrap_Ret_data in H. destruct H as (-> & Hsuccess & Hdata & _).
  apply (Hreports log r response Hurl Hans Hvalid Hsuccess Hdata).
Qed.

(** The balance after a [refreshBalance], however it went. *)
Lemma refreshBalance_balance env (fuel : nat) (s : Sys) :
  photoCredits (creditState (snd (refreshBalance env fuel s)))
  = match fst (getCreditBalance env fuel (world s)) with
    | Ret payload => get_opt payload "photoCredits"
    | _ => photoCredits (creditState s)
    end.
Proof.
  rewrite refreshBalance_run. cbv zeta.
  destruct (getCreditBalance env fuel (world s)) as [[payload | e |] w'];
    reflexivity.
Qed.

Lemma cycle_op_nonneg env (op : CycleOp) (s : Sys) :
  reports_credit_counts env ->
  nonneg_int (photoCredits (creditState s)) ->
  nonneg_int (photoCredits (creditState (snd (cycle_op env op s)))).
Proof.
  intros Hreports Hs. destruct op as [| fuel]; cbn [cycle_op].
  - apply (consume_credit_nonneg (creditState s) Hs).
  - rewrite refreshBalance_balance.
    destruct (getCreditBalance env fuel (world s)) as [[payload | e |] w'] eqn:Hb;
      cbn [fst]; try exact Hs.
    apply (getCreditBalance_reports env fuel _ _ _ Hreports Hb).
Qed.

(** C3 (amended).  On a backend whose balances are credit counts, from any
    starting balance that is an integer >= 0 and through any sequence of
    optimistic decrements and resyncs (whether the balance fetch of a resync
    returns, fails or never ends), the balance held in
    [CreditState.photoCredits] is an integer >= 0 after every operation.
    [consumeCredit] replaces the balance by [max(0, photoCredits - 1)], and
    a resync whose fetch returns overwrites it with the [photoCredits] of
    the payload, as it is. *)
Theorem C3_photoCredits_never_negative :
  forall env (ops : list CycleOp) (s : Sys),
    reports_credit_counts env ->
    nonneg_int (photoCredits (creditState s)) ->
    Forall (fun s' => nonneg_int (photoCredits (creditState s')))
           (cycle env ops s)
    /\ (forall z,
          photoCredits (creditState s) = int z ->
          photoCredits (creditState (snd (consumeCredit s)))
          = int (Z.max 0 (z - 1)))
    /\ (forall fuel payload,
          fst (getCreditBalance env fuel (world s)) = Ret payload ->
          photoCredits (creditState (snd (refreshBalance env fuel s)))
          = get_opt payload "photoCredits").
Proof.
  intros env ops s Hreports Hs. split; [| split].
  - revert s Hs. induction ops as [| op ops IH]; intros s Hs; cbn [cycle].
    + constructor.
    + pose proof (cycle_op_nonneg env op s Hreports Hs) as Hnext.
      constructor; [exact Hnext | apply IH; exact Hnext].
  - intros z Hz. apply (consume_credit_value (creditState s) z Hz).
  - intros fuel payload Hb. rewrite refreshBalance_balance, Hb. reflexivity.
Qed.

Lemma C3_witness :
  Forall (fun s' => nonneg_int (photoCredits (creditState s')))
    (cycle env_refreshable
       [OptimisticDecrement; OptimisticDecrement; Resync 3; OptimisticDecrement;
        Resync 0]
       (app (fresh_world (Some "tok-1")) 1 None)).
Proof.
  apply (C3_photoCredits_never_negative env_refreshable
           [OptimisticDecrement; OptimisticDecrement; Resync 3; OptimisticDecrement;
            Resync 0]
           (app (fresh_world (Some "tok-1")) 1 None)).
  - intros log r response Hurl Hans _ Hsuccess _.
    unfold env_refreshable, backend, is_refresh in Hans. cbn [server] in Hans.
    rewrite Hurl in Hans. cbn in Hans.
    destruct (carries r "tok-2"); inversion Hans; subst response.
    + exists 2. split; [reflexivity | lia].
    + discriminate Hsuccess.
  - exists 1. split; [reflexivity | lia].
Defined.

(** C3 as stated fails: the balance a resync fetches is copied as it is, so
    a backend that reports -5 takes a balance of 3 to -5. *)
Lemma C3_counterexample :
  ~ (forall env (ops : list CycleOp) (s : Sys),
       nonneg_int (photoCredits (creditState s)) ->
       Forall (fun s' => nonneg_int (photoCredits (creditState s')))
              (cycle env ops s)).
Proof.
  intros H.
  specialize (H env_overdrawn [Resync 1] (app (fresh_world (Some "tok-1")) 3 None)).
  assert (Hstart : nonneg_int (int 3)) by (exists 3; split; [reflexivity | lia]).
  specialize (H Hstart). inversion H as [| s' rest Hneg _]; subst.
  destruct Hneg as (z & Hz & Hpos). vm_compute in Hz.
  inversion Hz; subst. lia.
Qed.

(** ** The token the backend returns *)

Lemma truthy_of_member (v : JsValue) (k s : string) :
  get_opt v k = JStr s -> truthy v = true.
Proof.
  unfold get_opt, get. destruct v; try discriminate; reflexivity.
Qed.

Lemma accepted_not_401 (response : Response) :
  validateStatus (status response) = true -> not_401 (Answer response).
Proof.
  unfold validateStatus, not_401. intros H.
  apply andb_true_iff in H. destruct H as [_ H]. apply Z.ltb_lt in H. lia.
Qed.

Section ReturnedToken.

Variable env : Env.

(** The body shared by [signInWithApple] and [refreshToken], whenever it
    returns. *)
Lemma token_call_returned (name fallback : string) (req : Request) (fuel : nat)
  (w w' : World) (payload : JsValue) :
  bind (modify (log_call name)) (fun _ =>
    bind (request env fuel req) (fun response =>
      bind (unwrap response fallback) (fun p =>
        bind (prop p "sessionToken") (fun token =>
          bind (storeSessionToken env token) (fun _ => ret p))))) w
  = (Ret payload, w') ->
  answered_by env req w' payload
  /\ exists token,
       get payload "sessionToken" = Some (JStr token) /\ store w' = Some token.
Proof.
  intros H.
  apply bind_Ret_inv in H. destruct H as ([] & w1 & _ & H).
  apply bind_Ret_inv in H. destruct H as (response & w2 & Hreq & H).
  apply request_Ret_origin in Hreq.
  destruct Hreq as (log & r & l & Hurl & Hmethod & Hbody & Hsent & Hans & Hvalid).
  apply bind_Ret_inv in H. destruct H as (p & w3 & Hun & H).
  apply unwrap_Ret_data in Hun. destruct Hun as (Hp & _ & _ & ->).
  apply bind_Ret_inv in H. destruct H as (token & w4 & Hprop & H).
  apply prop_Ret in Hprop. destruct Hprop as [Hget ->].
  apply bind_Ret_inv in H. destruct H as ([] & w5 & Hstore & H).
  apply storeSessionToken_Ret in Hstore. destruct Hstore as (t & -> & ->).
  inversion H; subst payload w'. split.
  - exists log, r, response, l. cbn [sent set_store tick_storage].
    repeat split; assumption.
  - exists t. split; [exact Hget | reflexivity].
Qed.

(** The same body, when the backend accepts the request as first sent. *)
Lemma token_call_accepted (name fallback : string) (req : Request) (fuel : nat)
  (w : World) (response : Response) (token : string) :
  server env (sent w)
    (authorized (if storage_fails env (storage_ops w) then None else store w) req)
  = Answer response ->
  validateStatus (status response) = true ->
  truthy (get_opt (data response) "success") = true ->
  get_opt (get_opt (data response) "data") "sessionToken" = JStr token ->
  storage_fails env (S (storage_ops w)) = false ->
  exists w',
    bind (modify (log_call name)) (fun _ =>
      bind (request env (S fuel) req) (fun response =>
        bind (unwrap response fallback) (fun p =>
          bind (prop p "sessionToken") (fun token =>
            bind (storeSessionToken env token) (fun _ => ret p))))) w
    = (Ret (get_opt (data response) "data"), w')
    /\ sent w'
       = authorized (if storage_fails env (storage_ops w) then None else store w) req
         :: sent w
    /\ store w' = Some token.
Proof.
  intros Hans Hvalid Hsuccess Htoken Hwrite.
  set (first := authorized _ req) in *.
  rewrite (bind_Ret (modify (log_call name)) _ w tt (log_call name w) eq_refl).
  assert (Hreq : request env (S fuel) req (log_call name w)
                 = (Ret response, log_sent first (tick_storage (log_call name w)))).
  { rewrite request_other_answer; cbn [sent storage_ops store log_call];
      fold first; rewrite Hans.
    - unfold settle. rewrite Hvalid. reflexivity.
    - apply accepted_not_401. exact Hvalid. }
  rewrite (bind_Ret _ _ _ _ _ Hreq).
  rewrite (bind_Ret _ _ _ _ _
             (unwrap_ok response fallback _ Hsuccess
                (truthy_of_member _ _ _ Htoken))).
  unfold bind at 1, prop. rewrite (get_of_string _ _ _ Htoken). cbn [ret].
  unfold bind, storeSessionToken, try_catch, setItemAsync.
  cbn [storage_ops log_sent tick_storage log_call]. rewrite Hwrite.
  eexists. split; [reflexivity |]. split; reflexivity.
Qed.

End ReturnedToken.

(** C8.  [signInWithApple] and [refreshToken] persist the session token
    that the backend returns.  Whenever either returns, what it returns is
    the payload of an answer that the backend gave to the POST of the
    call, it carries a string [sessionToken], and the secure store holds
    exactly that string.  And either does return that payload, with its
    token stored, once the backend accepts the request with an envelope
    that carries a string [sessionToken] and the secure store accepts the
    write. *)
Theorem C8_returned_token_is_stored :
  forall env (credential : JsValue),
    persists_returned_token env
      (fun fuel => signInWithApple env fuel credential)
      (post API_ENDPOINTS.auth_apple credential)
    /\ persists_returned_token env
         (refreshToken env)
         (post API_ENDPOINTS.auth_refresh JUndefined).
Proof.
  intros env credential. split; intros fuel w; split.
  - intros payload w' H. unfold signInWithApple in H.
    apply (token_call_returned env _ _ _ _ _ _ _ H).
  - intros response token first Hans Hvalid Hsuccess Htoken Hwrite.
    unfold signInWithApple.
    apply (token_call_accepted env _ _ _ _ _ _ _ Hans Hvalid Hsuccess Htoken Hwrite).
  - intros payload w' H. unfold refreshToken, refreshToken_via in H.
    apply (token_call_returned env _ _ _ _ _ _ _ H).
  - intros response token first Hans Hvalid Hsuccess Htoken Hwrite.
    unfold refreshToken, refreshToken_via.
    apply (token_call_accepted env _ _ _ _ _ _ _ Hans Hvalid Hsuccess Htoken Hwrite).
Qed.

Lemma C8_witness :
  (exists w',
     signInWithApple env_refreshable 1 (JObj [("identityToken", JStr "apple-jwt")])
       (fresh_world None)
     = (Ret (auth_payload "tok-2"), w')
     /\ store w' = Some "tok-2")
  /\ (exists w',
        refreshToken env_refreshable 1 (fresh_world (Some "tok-1"))
        = (Ret (auth_payload "tok-2"), w')
        /\ store w' = Some "tok-2").
Proof.
  pose proof (C8_returned_token_is_stored env_refreshable
                (JObj [("identityToken", JStr "apple-jwt")])) as [HsignIn Hrefresh].
  split.
  - destruct (proj2 (HsignIn 0%nat (fresh_world None))
                (envelope_ok (auth_payload "tok-2")) "tok-2"
                eq_refl eq_refl eq_refl eq_refl eq_refl)
      as (w' & Hrun & _ & Hstore).
    exists w'. split; [exact Hrun | exact Hstore].
  - destruct (proj2 (Hrefresh 0%nat (fresh_world (Some "tok-1")))
                (envelope_ok (auth_payload "tok-2")) "tok-2"
                eq_refl eq_refl eq_refl eq_refl eq_refl)
      as (w' & Hrun & _ & Hstore).
    exists w'. split; [exact Hrun | exact Hstore].
Defined.
